(** * The expense list of the budget UI: paged loading and grouping

    A shallow embedding of [ExpenseListComponent]
    (src/app/expense/expense-list/expense-list.component.ts): the fields of
    the component are a record, each method is a function on that record,
    and what a method does to its collaborators (the expense service, the
    toast service, the completion callback of a refresher or of an infinite
    scroll) is the list of effects it returns.

    An HTTP fetch is asynchronous, so a method of the component ends when
    the request has been subscribed to; the response is handled later, by
    the callbacks given to [pipe] and [subscribe].  The embedding keeps the
    two moments apart: a method is a [Call], and [respond] is what the
    subscription does when the response (a page or an error) arrives. *)

From Stdlib Require Import List String Ascii ZArith Bool Arith Lia.
From Stdlib Require Import Sorted Permutation RelationClasses OrdersEx DecimalString.
Import ListNotations.

Set Implicit Arguments.

Local Open Scope string_scope.
Local Open Scope list_scope.

(** ** Domain types (shared/domain) *)

Module Expense.
(** Modelled from the spec: the declaration of [Expense] lives in
    shared/domain, which is not among the sources.  The component reads
    [id], [name] and [date]; the other fields are the ones the data model
    of the specification lists. *)
Record t : Type := mk {
  id : string;
  name : string;
  amount : Z;
  date : string;
  categoryId : option string;
  createdAt : string
}.
End Expense.

Module ExpenseGroup.
(** [interface ExpenseGroup { date: string; expenses: Expense[] }] *)
Record t : Type := mk {
  date : string;
  expenses : list Expense.t
}.
End ExpenseGroup.

Module Criteria.
(** [ExpenseCriteria]: a property that is absent, [undefined] or [null]
    is [None].  The page index starts at [0] and is only ever reset to
    [0] or incremented, so it is a natural number. *)
Record t : Type := mk {
  page : nat;
  size : nat;
  sort : string;
  name : option string;
  categoryIds : option (list string);
  yearMonth : option string
}.

Definition with_page (p : nat) (c : t) : t :=
  mk p (size c) (sort c) (name c) (categoryIds c) (yearMonth c).
End Criteria.

Module Page.
(** What [getExpenses] and [getCategories] emit: one page of records and
    the flag of the last page. *)
Record t (A : Type) : Type := mk {
  content : list A;
  last : bool
}.
End Page.

(** The value of the search form: [{ name, categoryIds, sort }]. *)
Record SearchFormValue : Type := {
  form_name : option string;
  form_categoryIds : option (list string);
  form_sort : string
}.

(** The outcome of an HTTP request: the observable emits one page and
    completes, or it fails with an error. *)
Inductive Response (A E : Type) : Type :=
| Emits (p : Page.t A)
| Fails (e : E).
Arguments Emits {A E} p.
Arguments Fails {A E} e.

(** A handler either returns or throws; the only exception the component
    can raise by itself is a [TypeError] (a property read on [undefined] or
    on [null]). *)
Inductive Exception : Type := TypeError.

Inductive Result (A : Type) : Type :=
| Returned (a : A)
| Thrown (e : Exception).
Arguments Returned {A} a.
Arguments Thrown {A} e.

Definition bind {A B : Type} (m : Result A) (k : A -> Result B) : Result B :=
  match m with
  | Returned a => k a
  | Thrown e => Thrown e
  end.

Notation "x <- m ;; k" := (bind m (fun x => k))
  (at level 61, m at next level, right associativity).

(** Runs a handler on every element of a list, in order, threading the
    state and stopping at the first exception. *)
Fixpoint forEach {A S : Type} (h : A -> S -> Result S) (l : list A) (s : S)
  : Result S :=
  match l with
  | [] => Returned s
  | a :: l' => s' <- h a s ;; forEach h l' s'
  end.

(** The target of a [RefresherCustomEvent] or [InfiniteScrollCustomEvent]. *)
Definition EventTarget : Type := nat.

(** The callback [next] given to [loadExpenses] and [loadCategories]. *)
Inductive Callback : Type :=
| doNothing
    (* the default [() => {}] *)
| completeIfEvent (ev : option EventTarget)
    (* [() => ($event ? $event.target.complete() : {})] *)
| completeEvent (ev : EventTarget).
    (* [() => $event.target.complete()] *)

(** ** Partitioning a page: [from(content).pipe(groupBy(key), mergeMap(g => g.pipe(toArray())))]

    [groupBy] keeps a map from keys to groups in the order in which the
    keys were first seen; a record goes to the group of its key, at its
    end.  [from] is synchronous: when the content is exhausted every group
    completes, in the order of the map, and [toArray] then emits the
    records of that group as one array. *)

Section GroupBy.
Variable A : Type.
Variable key : A -> string.

Fixpoint addToGroup (a : A) (groups : list (string * list A))
  : list (string * list A) :=
  match groups with
  | [] => [(key a, [a])]
  | (k, members) :: rest =>
      if (k =? key a)%string then (k, members ++ [a]) :: rest
      else (k, members) :: addToGroup a rest
  end.

Definition groupBy (content : list A) : list (string * list A) :=
  fold_left (fun groups a => addToGroup a groups) content [].

Definition partitions (content : list A) : list (list A) :=
  map snd (groupBy content).

(** Every group has a member, and its members have its key. *)
Definition wellGrouped (groups : list (string * list A)) : Prop :=
  Forall (fun g => snd g <> [] /\ Forall (fun a => key a = fst g) (snd g))
    groups.

(** The groups of the key [d]. *)
Definition ofKey (d : string) (groups : list (string * list A))
  : list (string * list A) :=
  filter (fun g => (fst g =? d)%string) groups.
End GroupBy.

(** ** Concrete collaborators and records, for examples *)

Module Sample.
(** A month, counted from January of year 0. *)
Definition Month : Type := Z.

Definition addMonths (d : Month) (number : Z) : Month := (d + number)%Z.

Definition twoDigits (n : Z) : string :=
  let digits := NilZero.string_of_uint (N.to_uint (Z.to_N n)) in
  if (n <? 10)%Z then "0" ++ digits else digits.

Definition formatPeriod (d : Month) : string :=
  NilZero.string_of_uint (N.to_uint (Z.to_N (d / 12))) ++ "-" ++ twoDigits (d mod 12 + 1).

Definition january2024 : Month := (2024 * 12)%Z.

(** The comparison of an implementation whose collation is the order of
    the code units. *)
Definition codeUnitCompare (a b : string) : Z :=
  match String_as_OT.compare a b with
  | Lt => (-1)%Z
  | Eq => 0%Z
  | Gt => 1%Z
  end.

Definition expense (id name date : string) : Expense.t :=
  Expense.mk id name 100 date None "2024-01-06T08:00:00Z".

Definition milk : Expense.t := expense "e1" "Milk" "2024-01-05".
Definition bread : Expense.t := expense "e2" "Bread" "2024-01-05".
Definition eggs : Expense.t := expense "e3" "Eggs" "2024-01-05".
Definition rent : Expense.t := expense "e4" "Rent" "2024-01-01".
Definition coffee : Expense.t := expense "e5" "Coffee" "2024-01-03".
Definition water : Expense.t := expense "e6" "Water" "2024-01-01".

Definition firstPage : Page.t Expense.t := Page.mk [milk; bread; rent] false.
Definition secondPage : Page.t Expense.t := Page.mk [eggs] true.

Definition byName : SearchFormValue :=
  {| form_name := None; form_categoryIds := None; form_sort := "name,asc" |}.
Definition byDateAscending : SearchFormValue :=
  {| form_name := Some "e"; form_categoryIds := Some ["c1"];
     form_sort := "date,asc" |}.
End Sample.

(** ** The expense modal (src/app/expense/expense-modal/expense-modal.component.ts)

    The modal that [openModal] of the expense list presents.  What the
    user does in it is an [Interaction]; the modal stays open until one of
    them dismisses it, and the role of that dismissal is what
    [onWillDismiss] gives to the list. *)

Module ExpenseModal.
Section Modal.
Variable Category : Type.
Variable HttpError : Type.

(** [formatISO(parseISO(date), { representation: 'date' })] of date-fns,
    on the date of the form ([None] when the form has none): the day, or
    [None] when the date does not parse and [formatISO] throws a
    [RangeError]. *)
Variable isoDate : option string -> option string.

(** The value of [expenseForm]. *)
Record FormValue : Type := mkForm {
  id : option string;
  categoryId : option string;
  name : string;
  amount : string;
  date : option string
}.

Inductive Effect : Type :=
| UpsertExpense (expense : FormValue)
| DisplaySuccessToast (message : string)
| DisplayErrorToast (message : string) (error : HttpError)
| ShowDeletionConfirmation (message : string)
| Dismiss (role : string)
    (* [modalCtrl.dismiss(null, role)] *)
| ThrowsRangeError.
    (* the method ends with an uncaught [RangeError] *)

Record Modal : Type := mkModal {
  categories : list Category;
  expenseForm : FormValue;
  submitting : bool
}.

(** What the user does, with what comes back: the value typed into the
    form, the response to the upsert ([None] when it succeeds), the action
    chosen in the action sheet. *)
Inductive Interaction : Type :=
| Edit (value : FormValue)
| Cancel
| Save (failure : option HttpError)
| Delete (action : string).

Definition edit (value : FormValue) (this : Modal) : Modal * list Effect :=
  (mkModal (categories this) value (submitting this), []).

Definition cancel (this : Modal) : Modal * list Effect :=
  (this, [Dismiss "cancel"]).

(** [save()], lines 62 to 76, with the response to the upsert.  The
    argument of [upsertExpense] is evaluated after [submitting] is set and
    before the request is made: when the date does not parse, [save]
    throws there and no request is made. *)
Definition save (failure : option HttpError) (this : Modal)
  : Modal * list Effect :=
  let this := mkModal (categories this) (expenseForm this) true in
  let form := expenseForm this in
  match isoDate (date form) with
  | None => (this, [ThrowsRangeError])
  | Some day =>
      let expense :=
        mkForm (id form) (categoryId form) (name form) (amount form)
          (Some day) in
      match failure with
      | None =>
          (this, [UpsertExpense expense; DisplaySuccessToast "Expense saved";
                  Dismiss "refresh"])
      | Some error =>
          (this, [UpsertExpense expense;
                  DisplayErrorToast "Could not save Expense" error])
      end
  end.

(** [delete()], lines 79 to 83: [filter((action) => action === 'delete')]. *)
Definition delete (action : string) (this : Modal) : Modal * list Effect :=
  let asked :=
    ShowDeletionConfirmation "Are you sure you want to delete this expense?" in
  if (action =? "delete")%string
  then (this, [asked; Dismiss "delete"])
  else (this, [asked]).

Definition interact (i : Interaction) (this : Modal) : Modal * list Effect :=
  match i with
  | Edit value => edit value this
  | Cancel => cancel this
  | Save failure => save failure this
  | Delete action => delete action this
  end.

(** The role of the first dismissal among the effects. *)
Fixpoint dismissal (effects : list Effect) : option string :=
  match effects with
  | [] => None
  | Dismiss role :: _ => Some role
  | _ :: rest => dismissal rest
  end.

(** The interactions with a presented modal, up to the one that dismisses
    it; the role is [None] while the modal is still open. *)
Fixpoint session (interactions : list Interaction) (this : Modal)
  : Modal * option string :=
  match interactions with
  | [] => (this, None)
  | i :: rest =>
      let '(this, effects) := interact i this in
      match dismissal effects with
      | Some role => (this, Some role)
      | None => session rest this
      end
  end.

(** The modal was closed by a save that succeeded: the modal was still
    open when that save was made, the date of the form parsed and the
    upsert was answered without an error. *)
Definition closedBySave (interactions : list Interaction) (this : Modal)
  : Prop :=
  exists before after opened,
    interactions = before ++ Save None :: after /\
    session before this = (opened, None) /\
    isoDate (date (expenseForm opened)) <> None.
End Modal.
End ExpenseModal.

(** ** The category list (src/app/category/category-list/category-list.component.ts) *)

Module CategoryCriteria.
(** Modelled from the spec: the declaration of [CategoryCriteria] lives in
    shared/domain, which is not among the sources; these are the
    properties that the component reads and writes. *)
Record t : Type := mk {
  page : nat;
  size : nat;
  sort : string;
  name : option string
}.

Definition with_page (p : nat) (c : t) : t := mk p (size c) (sort c) (name c).
End CategoryCriteria.

Module CategoryList.
Section List.
Variable Category : Type.
Variable HttpError : Type.

Inductive Effect : Type :=
| GetCategories (criteria : CategoryCriteria.t)
| Calls (next : Callback)
| DisplayErrorToast (message : string) (error : HttpError).

Record Component : Type := mkComponent {
  categories : option (list Category);
  lastPageReached : bool;
  loading : bool;
  searchCriteria : CategoryCriteria.t
}.

Definition initialSort : string := "name,asc".

Definition initial : Component :=
  mkComponent None false false (CategoryCriteria.mk 0 25 initialSort None).

Definition deleteEmptyName (c : CategoryCriteria.t) : CategoryCriteria.t :=
  match CategoryCriteria.name c with
  | Some (String _ _) => c
  | _ => CategoryCriteria.mk (CategoryCriteria.page c) (CategoryCriteria.size c)
           (CategoryCriteria.sort c) None
  end.

(** The synchronous part of [loadCategories(next)], lines 28 to 31. *)
Definition loadCategories (next : Callback) (this : Component)
  : Component * Callback * list Effect :=
  let criteria := deleteEmptyName (searchCriteria this) in
  let this := mkComponent (categories this) (lastPageReached this) true criteria in
  (this, next, [GetCategories criteria]).

(** The subscription when the response arrives: the [next] or the [error]
    handler, then [finalize]. *)
Definition respond (next : Callback) (response : Response Category HttpError)
  (this : Component) : Component * list Effect :=
  match response with
  | Emits page =>
      let kept :=
        match categories this with
        | Some loaded =>
            if (CategoryCriteria.page (searchCriteria this) =? 0)%nat
            then [] else loaded
        | None => []
        end in
      (mkComponent (Some (kept ++ Page.content page)) (Page.last page) false
         (searchCriteria this),
       [Calls next])
  | Fails error =>
      (mkComponent (categories this) (lastPageReached this) false
         (searchCriteria this),
       [DisplayErrorToast "Could not load categories" error; Calls next])
  end.

Definition with_page (p : nat) (this : Component) : Component :=
  mkComponent (categories this) (lastPageReached this) (loading this)
    (CategoryCriteria.with_page p (searchCriteria this)).

Definition ionViewDidEnter (this : Component) :=
  loadCategories doNothing this.

Definition loadNextCategoryPage (ev : EventTarget) (this : Component) :=
  loadCategories (completeEvent ev)
    (with_page (S (CategoryCriteria.page (searchCriteria this))) this).

Definition reloadCategories (ev : option EventTarget) (this : Component) :=
  loadCategories (completeIfEvent ev) (with_page 0 this).

Inductive Method : Type :=
| IonViewDidEnter
| LoadNextCategoryPage (ev : EventTarget)
| ReloadCategories (ev : option EventTarget).

Definition invoke (m : Method) (this : Component)
  : Component * Callback * list Effect :=
  match m with
  | IonViewDidEnter => ionViewDidEnter this
  | LoadNextCategoryPage ev => loadNextCategoryPage ev this
  | ReloadCategories ev => reloadCategories ev this
  end.

(** A call followed by its response. *)
Definition settle (m : Method) (response : Response Category HttpError)
  (this : Component) : Component * list Effect :=
  let '(this, next, requested) := invoke m this in
  let '(this, effects) := respond next response this in
  (this, requested ++ effects).

(** Loads one after the other, each with its response, and all their
    effects. *)
Fixpoint run (steps : list (Method * Response Category HttpError))
  (this : Component) : Component * list Effect :=
  match steps with
  | [] => (this, [])
  | (m, response) :: rest =>
      let '(this, effects) := settle m response this in
      let '(this, later) := run rest this in
      (this, effects ++ later)
  end.

(** The steps of a reload and of further pages, which all arrive. *)
Definition pagesLoaded (ev : option EventTarget) (first : Page.t Category)
  (more : list (EventTarget * Page.t Category))
  : list (Method * Response Category HttpError) :=
  (ReloadCategories ev, Emits first)
  :: map (fun p => (LoadNextCategoryPage (fst p), Emits (snd p))) more.

Definition isCall (e : Effect) : bool :=
  match e with Calls _ => true | _ => false end.

Definition callbackOf (m : Method) : Callback :=
  match m with
  | IonViewDidEnter => doNothing
  | LoadNextCategoryPage ev => completeEvent ev
  | ReloadCategories ev => completeIfEvent ev
  end.
End List.
End CategoryList.

Section ExpenseList.

(** ** Collaborators that are not among the sources *)

(** A JavaScript [Date], with [addMonths] of date-fns and [formatPeriod]
    of shared/period. *)
Variable DateT : Type.
Variable dateFnsAddMonths : DateT -> Z -> DateT.
Variable formatPeriod : DateT -> string.

(** [Category] of shared/domain and the error of a failed request. *)
Variable Category : Type.
Variable HttpError : Type.

(** [String.prototype.localeCompare]: negative, zero or positive. *)
Variable localeCompare : string -> string -> Z.

(** ** Effects on the collaborators *)

Inductive Effect : Type :=
| GetExpenses (criteria : Criteria.t)
    (* [expenseService.getExpenses(criteria)] is subscribed to *)
| GetCategories (criteria : Criteria.t)
    (* [categoryService.getCategories(criteria)] is subscribed to *)
| Calls (next : Callback)
    (* [next()] *)
| DisplayErrorToast (message : string) (error : HttpError).
    (* [toastService.displayErrorToast(message, error)] *)

(** ** The component *)

Record Component : Type := mkComponent {
  date : DateT;
  expenseGroups : option (list ExpenseGroup.t);
  lastPageReached : bool;
  loading : bool;
  searchCriteria : Criteria.t;
  categories : list Category
}.

Definition initialSort : string := "date,desc".

(** The field initialisers of the class; [today] is
    [set(new Date(), { date: 1 })]. *)
Definition initial (today : DateT) : Component :=
  mkComponent today None false false
    (Criteria.mk 0 25 initialSort None None None) [].

Definition set_date (d : DateT) (c : Component) : Component :=
  mkComponent d (expenseGroups c) (lastPageReached c) (loading c)
    (searchCriteria c) (categories c).
Definition set_expenseGroups (g : option (list ExpenseGroup.t))
  (c : Component) : Component :=
  mkComponent (date c) g (lastPageReached c) (loading c)
    (searchCriteria c) (categories c).
Definition set_lastPageReached (b : bool) (c : Component) : Component :=
  mkComponent (date c) (expenseGroups c) b (loading c)
    (searchCriteria c) (categories c).
Definition set_loading (b : bool) (c : Component) : Component :=
  mkComponent (date c) (expenseGroups c) (lastPageReached c) b
    (searchCriteria c) (categories c).
Definition set_searchCriteria (k : Criteria.t) (c : Component) : Component :=
  mkComponent (date c) (expenseGroups c) (lastPageReached c) (loading c)
    k (categories c).
Definition set_categories (l : list Category) (c : Component) : Component :=
  mkComponent (date c) (expenseGroups c) (lastPageReached c) (loading c)
    (searchCriteria c) l.

(** ** [sortExpenses]

    [expenses.sort((a, b) => a.name.localeCompare(b.name))].
    [Array.prototype.sort] is a stable sort: with a consistent comparator
    its result is the one of a stable insertion sort.  The array is
    sorted in place and returned; every array the component sorts is
    fresh (made by [toArray] or by a spread), so nothing else sees the
    mutation. *)

Definition compareByName (a b : Expense.t) : Z :=
  localeCompare (Expense.name a) (Expense.name b).

Fixpoint insertByName (a : Expense.t) (sorted : list Expense.t)
  : list Expense.t :=
  match sorted with
  | [] => [a]
  | b :: rest =>
      if (compareByName a b <=? 0)%Z then a :: b :: rest
      else b :: insertByName a rest
  end.

Definition sortExpenses (expenses : list Expense.t) : list Expense.t :=
  fold_right insertByName [] expenses.

(** ** [loadExpenses] *)

(** What the callbacks of one subscription captured when it was made. *)
Record Subscription : Type := {
  groupByDate : bool;
  next : Callback
}.

Definition Call : Type := Component -> Component * Subscription * list Effect.

(** [delete] of the filters that are empty: [!categoryIds?.length] and
    [!name]. *)
Definition deleteEmptyCategoryIds (c : Criteria.t) : Criteria.t :=
  match Criteria.categoryIds c with
  | Some (_ :: _) => c
  | _ => Criteria.mk (Criteria.page c) (Criteria.size c) (Criteria.sort c)
           (Criteria.name c) None (Criteria.yearMonth c)
  end.

Definition deleteEmptyName (c : Criteria.t) : Criteria.t :=
  match Criteria.name c with
  | Some (String _ _) => c
  | _ => Criteria.mk (Criteria.page c) (Criteria.size c) (Criteria.sort c)
           None (Criteria.categoryIds c) (Criteria.yearMonth c)
  end.

Definition set_yearMonth (ym : string) (c : Criteria.t) : Criteria.t :=
  Criteria.mk (Criteria.page c) (Criteria.size c) (Criteria.sort c)
    (Criteria.name c) (Criteria.categoryIds c) (Some ym).

(** Lines 70 to 72: the period is set, then the empty filters are
    deleted. *)
Definition normalise (ym : string) (c : Criteria.t) : Criteria.t :=
  deleteEmptyName (deleteEmptyCategoryIds (set_yearMonth ym c)).

(** The synchronous part of [loadExpenses(next)], lines 70 to 76. *)
Definition loadExpenses (next : Callback) : Call := fun this =>
  let criteria := normalise (formatPeriod (date this)) (searchCriteria this) in
  let this := set_searchCriteria criteria this in
  let this := set_loading true this in
  let groupByDate := String.prefix "date" (Criteria.sort (searchCriteria this)) in
  (this, Build_Subscription groupByDate next, [GetExpenses (searchCriteria this)]).

(** [this.expenseGroups!.find((other) => other.date === expenseGroup.date)] *)
Definition sameDate (expenseGroup other : ExpenseGroup.t) : bool :=
  (ExpenseGroup.date other =? ExpenseGroup.date expenseGroup)%string.

(** The [else] branch of the subscriber: the group that [find] returned
    is an element of [this.expenseGroups], so the assignment to its
    [expenses] changes the first group of that date in the array. *)
Fixpoint mergeIntoSameDate (expenseGroup : ExpenseGroup.t)
  (groups : list ExpenseGroup.t) : list ExpenseGroup.t :=
  match groups with
  | [] => []
  | other :: rest =>
      if sameDate expenseGroup other
      then ExpenseGroup.mk (ExpenseGroup.date other)
             (sortExpenses (ExpenseGroup.expenses other
                              ++ ExpenseGroup.expenses expenseGroup))
           :: rest
      else other :: mergeIntoSameDate expenseGroup rest
  end.

(** Lines 95 to 101: the group is pushed when [find] returned
    [undefined] or the grouping is not by date, and merged otherwise. *)
Definition pushOrMerge (groupByDate : bool) (expenseGroup : ExpenseGroup.t)
  (groups : list ExpenseGroup.t) : list ExpenseGroup.t :=
  let expenseGroupWithSameDate := find (sameDate expenseGroup) groups in
  if match expenseGroupWithSameDate with None => true | Some _ => false end
     || negb groupByDate
  then groups ++ [expenseGroup]
  else mergeIntoSameDate expenseGroup groups.

(** The [next] handler of [subscribe], lines 90 to 102.  [expenses[0]] of
    an empty array is [undefined], and so is reading a property of
    [this.expenseGroups] when it is [null]: both throw. *)
Definition subscriberNext (groupByDate : bool) (expenses : list Expense.t)
  (this : Component) : Result Component :=
  match expenses with
  | [] => Thrown TypeError
  | first :: _ =>
      let expenseGroup :=
        ExpenseGroup.mk (Expense.date first) (sortExpenses expenses) in
      match expenseGroups this with
      | None => Thrown TypeError
      | Some groups =>
          Returned (set_expenseGroups
                      (Some (pushOrMerge groupByDate expenseGroup groups)) this)
      end
  end.

(** The grouping key of line 84. *)
Definition groupingKey (groupByDate : bool) (expense : Expense.t) : string :=
  if groupByDate then Expense.date expense else Expense.id expense.

(** The project function of the outer [mergeMap], lines 80 to 82. *)
Definition onExpensePage (sub : Subscription) (expensePage : Page.t Expense.t)
  (this : Component) : Component * list Effect :=
  let this := set_lastPageReached (Page.last expensePage) this in
  let called := [Calls (next sub)] in
  let this :=
    if (Criteria.page (searchCriteria this) =? 0)%nat
       || match expenseGroups this with None => true | Some _ => false end
    then set_expenseGroups (Some []) this
    else this in
  (this, called).

(** What the subscription of [loadExpenses] does when the response
    arrives.  On a page: the project function, then the subscriber on
    every partition, then (the source has completed) [finalize].  On an
    error: [mergeMap] passes it on to the [error] handler, and the
    teardown runs [finalize]. *)
Definition respond (sub : Subscription) (response : Response Expense.t HttpError)
  (this : Component) : Result (Component * list Effect) :=
  match response with
  | Emits expensePage =>
      let '(this, effects) := onExpensePage sub expensePage this in
      this <- forEach (subscriberNext (groupByDate sub))
                (partitions (groupingKey (groupByDate sub))
                   (Page.content expensePage))
                this ;;
      Returned (set_loading false this, effects)
  | Fails error =>
      Returned (set_loading false this,
                [DisplayErrorToast "Could not load expenses" error])
  end.

(** A call followed by its response, with nothing in between. *)
Definition settle (call : Call) (response : Response Expense.t HttpError)
  (this : Component) : Result (Component * list Effect) :=
  let '(this, sub, requested) := call this in
  r <- respond sub response this ;;
  Returned (fst r, requested ++ snd r).

(** ** The methods that load expenses *)

Definition reloadExpenses (ev : option EventTarget) : Call := fun this =>
  let this :=
    set_searchCriteria (Criteria.with_page 0 (searchCriteria this)) this in
  loadExpenses (completeIfEvent ev) this.

Definition loadNextExpensePage (ev : EventTarget) : Call := fun this =>
  let this :=
    set_searchCriteria
      (Criteria.with_page (S (Criteria.page (searchCriteria this)))
         (searchCriteria this)) this in
  loadExpenses (completeEvent ev) this.

Definition addMonths (number : Z) : Call := fun this =>
  let this := set_date (dateFnsAddMonths (date this) number) this in
  let this := set_expenseGroups None this in
  reloadExpenses None this.

(** The subscriber of [searchForm.valueChanges], lines 56 to 59:
    [{ ...this.searchCriteria, ...value, page: 0 }]. *)
Definition onSearchFormValueChanges (value : SearchFormValue) : Call :=
  fun this =>
  let criteria :=
    Criteria.mk 0 (Criteria.size (searchCriteria this)) (form_sort value)
      (form_name value) (form_categoryIds value)
      (Criteria.yearMonth (searchCriteria this)) in
  loadExpenses doNothing (set_searchCriteria criteria this).

(** ** [loadCategories], whose [finalize] also calls [next] *)

(** The synchronous part of [loadCategories(next)], lines 120 to 123. *)
Definition loadCategories (next : Callback)
  : Component -> Component * Callback * list Effect := fun this =>
  let this := set_searchCriteria (deleteEmptyName (searchCriteria this)) this in
  let this := set_loading true this in
  (this, next, [GetCategories (searchCriteria this)]).

(** The subscription of [loadCategories] when the response arrives.  An
    array is never falsy, so [!this.categories] is [false]. *)
Definition respondCategories (next : Callback)
  (response : Response Category HttpError) (this : Component)
  : Component * list Effect :=
  match response with
  | Emits page =>
      let this :=
        if (Criteria.page (searchCriteria this) =? 0)%nat
        then set_categories [] this else this in
      let this := set_categories (categories this ++ Page.content page) this in
      let this := set_lastPageReached (Page.last page) this in
      (set_loading false this, [Calls next])
  | Fails error =>
      (set_loading false this,
       [DisplayErrorToast "Could not load categories" error; Calls next])
  end.

(** ** Sequences of loads

    The methods of the component that call [loadExpenses]; a plain
    [loadExpenses()] is what [ionViewDidEnter] and [openModal] do.  A
    step is a method together with the response to its request: the
    callers wait for a response before they load again. *)

Inductive Method : Type :=
| LoadExpenses
| ReloadExpenses (ev : option EventTarget)
| LoadNextExpensePage (ev : EventTarget)
| AddMonths (number : Z)
| SearchFormValueChanges (value : SearchFormValue).

Definition invoke (m : Method) : Call :=
  match m with
  | LoadExpenses => loadExpenses doNothing
  | ReloadExpenses ev => reloadExpenses ev
  | LoadNextExpensePage ev => loadNextExpensePage ev
  | AddMonths number => addMonths number
  | SearchFormValueChanges value => onSearchFormValueChanges value
  end.

Definition Step : Type := (Method * Response Expense.t HttpError)%type.

Fixpoint run (steps : list Step) (this : Component) : Result Component :=
  match steps with
  | [] => Returned this
  | (m, response) :: rest =>
      r <- settle (invoke m) response this ;; run rest (fst r)
  end.

(** ** Predicates of the properties *)

(** [a] is not after [b] in the order of [localeCompare] on names. *)
Definition nameLe (a b : Expense.t) : Prop := (compareByName a b <= 0)%Z.

Definition sortedByName (expenses : list Expense.t) : Prop :=
  StronglySorted nameLe expenses.

Definition groupsOf (this : Component) : list ExpenseGroup.t :=
  match expenseGroups this with
  | None => []
  | Some groups => groups
  end.

(** The groups that a page is folded into: none for the first page. *)
Definition keptGroups (this : Component) : list ExpenseGroup.t :=
  if (Criteria.page (searchCriteria this) =? 0)%nat then [] else groupsOf this.

(** The component when a call returns, before any response, and the
    requests the call made. *)
Definition afterCall (call : Call) (this : Component) : Component :=
  fst (fst (call this)).
Definition subscriptionOf (call : Call) (this : Component) : Subscription :=
  snd (fst (call this)).
Definition effectsOf (call : Call) (this : Component) : list Effect :=
  snd (call this).

Definition everyGroupSorted (this : Component) : Prop :=
  Forall (fun g => sortedByName (ExpenseGroup.expenses g)) (groupsOf this).

(** The groups of date [d]. *)
Definition groupsOfDate (d : string) (groups : list ExpenseGroup.t)
  : list ExpenseGroup.t :=
  filter (fun g => (ExpenseGroup.date g =? d)%string) groups.

(** A partition whose first record is not of date [d]. *)
Definition ofOtherDate (d : string) (expenses : list Expense.t) : Prop :=
  exists first rest, expenses = first :: rest /\ Expense.date first <> d.

Definition datesUnique (this : Component) : Prop :=
  NoDup (map ExpenseGroup.date (groupsOf this)).

Definition sortsByDate (this : Component) : Prop :=
  String.prefix "date" (Criteria.sort (searchCriteria this)) = true.

Definition keepsDateSort (m : Method) : Prop :=
  match m with
  | SearchFormValueChanges value => String.prefix "date" (form_sort value) = true
  | _ => True
  end.

(** The toasts among the effects. *)
Definition isToast (e : Effect) : bool :=
  match e with DisplayErrorToast _ _ => true | _ => false end.

Definition isCall (e : Effect) : bool :=
  match e with Calls _ => true | _ => false end.

(** ** The other methods of the component *)

(** The synchronous part of [ionViewDidEnter], lines 63 to 66: the two
    requests are in flight together. *)
Definition ionViewDidEnter (this : Component)
  : Component * Subscription * Callback * list Effect :=
  let '(this, sub, requestedExpenses) := loadExpenses doNothing this in
  let '(this, next, requestedCategories) := loadCategories doNothing this in
  (this, sub, next, requestedExpenses ++ requestedCategories).

(** [openModal], lines 157 and 158, when the modal has been dismissed
    with [role]: [if (role === 'refresh') this.loadExpenses()]. *)
Definition openModalDismissed (role : option string) (this : Component)
  : Component * option Subscription * list Effect :=
  match role with
  | Some role =>
      if (role =? "refresh")%string
      then let '(this, sub, requested) := loadExpenses doNothing this in
           (this, Some sub, requested)
      else (this, None, [])
  | None => (this, None, [])
  end.

(** The two responses to the requests of [ionViewDidEnter], in the two
    orders in which they can arrive. *)
Definition expensesThenCategories
  (expenses : Response Expense.t HttpError)
  (categoryPage : Response Category HttpError) (this : Component)
  : Result Component :=
  let '(this, sub, next, _) := ionViewDidEnter this in
  r <- respond sub expenses this ;;
  Returned (fst (respondCategories next categoryPage (fst r))).

Definition categoriesThenExpenses
  (expenses : Response Expense.t HttpError)
  (categoryPage : Response Category HttpError) (this : Component)
  : Result Component :=
  let '(this, sub, next, _) := ionViewDidEnter this in
  r <- respond sub expenses (fst (respondCategories next categoryPage this)) ;;
  Returned (fst r).

(** ** Predicates of the further properties *)

(** The expenses of all groups, group after group. *)
Definition allExpenses (groups : list ExpenseGroup.t) : list Expense.t :=
  List.concat (map ExpenseGroup.expenses groups).

(** The expenses of a group have the date of the group. *)
Definition ofItsDate (g : ExpenseGroup.t) : Prop :=
  Forall (fun e => Expense.date e = ExpenseGroup.date g) (ExpenseGroup.expenses g).

(** The criteria of a request have no empty filter. *)
Definition noEmptyFilter (c : Criteria.t) : Prop :=
  Criteria.name c <> Some "" /\ Criteria.categoryIds c <> Some [].

(** * Properties *)

(** ** Partitions *)

Section GroupByFacts.
Variable A : Type.
Variable key : A -> string.

Lemma addToGroup_wellGrouped a groups :
  wellGrouped key groups -> wellGrouped key (addToGroup key a groups).
Proof.
  unfold wellGrouped.
  induction groups as [|[k members] rest IH]; intros Hg; simpl.
  - repeat constructor; discriminate.
  - inversion Hg as [|? ? [Hne Hkeys] Hrest]; subst; simpl in *.
    destruct (String.eqb_spec k (key a)) as [Heq|Hneq].
    + constructor; [|assumption]. simpl. split.
      * destruct members; discriminate.
      * apply Forall_app. split; [assumption|]. repeat constructor.
        symmetry; exact Heq.
    + constructor; [split; assumption|]. apply IH; assumption.
Qed.

Lemma fold_addToGroup_wellGrouped content groups :
  wellGrouped key groups ->
  wellGrouped key (fold_left (fun gs a => addToGroup key a gs) content groups).
Proof.
  revert groups.
  induction content as [|a content IH]; intros groups Hg; simpl.
  - exact Hg.
  - apply IH, addToGroup_wellGrouped, Hg.
Qed.

Lemma groupBy_wellGrouped content : wellGrouped key (groupBy key content).
Proof.
  apply fold_addToGroup_wellGrouped. constructor.
Qed.

Lemma partitions_nonempty content :
  Forall (fun expenses => expenses <> []) (partitions key content).
Proof.
  unfold partitions. apply Forall_map.
  eapply Forall_impl; [|apply groupBy_wellGrouped].
  intros g [Hne _]; exact Hne.
Qed.

Lemma addToGroup_fresh a groups :
  ~ In (key a) (map fst groups) ->
  addToGroup key a groups = groups ++ [(key a, [a])].
Proof.
  induction groups as [|[k members] rest IH]; intros Hfresh; simpl.
  - reflexivity.
  - simpl in Hfresh.
    destruct (String.eqb_spec k (key a)) as [Heq|Hneq].
    + exfalso. apply Hfresh. left; exact Heq.
    + f_equal. apply IH. intros Hin. apply Hfresh. right; exact Hin.
Qed.

(** Records with pairwise different keys are grouped one by one. *)
Lemma fold_addToGroup_distinct content groups :
  NoDup (map key content) ->
  (forall a, In a content -> ~ In (key a) (map fst groups)) ->
  fold_left (fun gs a => addToGroup key a gs) content groups
  = groups ++ map (fun a => (key a, [a])) content.
Proof.
  revert groups.
  induction content as [|a content IH]; intros groups Hnd Hfresh; simpl.
  - symmetry; apply app_nil_r.
  - inversion Hnd as [|? ? Hnotin Hnd']; subst.
    rewrite addToGroup_fresh by (apply Hfresh; left; reflexivity).
    rewrite IH.
    + rewrite <- app_assoc. reflexivity.
    + exact Hnd'.
    + intros b Hb Hin. rewrite map_app, in_app_iff in Hin.
      destruct Hin as [Hin|[Heq|[]]].
      * apply (Hfresh b); [right; exact Hb|exact Hin].
      * simpl in Heq. apply Hnotin. rewrite Heq.
        apply in_map; exact Hb.
Qed.

Lemma partitions_distinct content :
  NoDup (map key content) ->
  partitions key content = map (fun a => [a]) content.
Proof.
  intros Hnd. unfold partitions, groupBy.
  rewrite fold_addToGroup_distinct; [|exact Hnd|intros a _ []].
  simpl. rewrite map_map. reflexivity.
Qed.
Lemma ofKey_nil_fresh d (groups : list (string * list A)) :
  ofKey d groups = [] -> ~ In d (map fst groups).
Proof.
  intros Hnone Hin. apply in_map_iff in Hin. destruct Hin as [g [Hd Hin]].
  assert (Hg : In g (ofKey d groups)).
  { apply filter_In. split; [exact Hin|]. rewrite Hd. apply String.eqb_refl. }
  rewrite Hnone in Hg. exact Hg.
Qed.

Lemma addToGroup_other_key d a groups :
  key a <> d -> ofKey d (addToGroup key a groups) = ofKey d groups.
Proof.
  intros Hneq.
  induction groups as [|[k members] rest IH]; simpl.
  - destruct (String.eqb_spec (key a) d); [contradiction|reflexivity].
  - destruct (String.eqb_spec k (key a)) as [Hk|Hk]; simpl.
    + destruct (String.eqb_spec k d) as [Hd|_]; [|reflexivity].
      exfalso. apply Hneq. rewrite <- Hk. exact Hd.
    + rewrite IH. reflexivity.
Qed.

Lemma fold_addToGroup_other_key d content :
  Forall (fun a => key a <> d) content ->
  forall groups,
  ofKey d (fold_left (fun gs a => addToGroup key a gs) content groups)
  = ofKey d groups.
Proof.
  induction 1 as [|a content Ha _ IH]; intros groups; simpl.
  - reflexivity.
  - rewrite IH. apply addToGroup_other_key; exact Ha.
Qed.

(** When one record of a page has the key [d], the partition of [d] is
    that record alone. *)
Lemma groupBy_single_key d before b after :
  key b = d ->
  Forall (fun a => key a <> d) before ->
  Forall (fun a => key a <> d) after ->
  ofKey d (groupBy key (before ++ b :: after)) = [(d, [b])].
Proof.
  intros Hb Hbefore Hafter. unfold groupBy.
  rewrite fold_left_app. simpl.
  rewrite (fold_addToGroup_other_key Hafter).
  pose proof (fold_addToGroup_other_key Hbefore []) as Hnone. simpl in Hnone.
  rewrite addToGroup_fresh by (rewrite Hb; apply ofKey_nil_fresh; exact Hnone).
  unfold ofKey in *. rewrite filter_app, Hnone. simpl.
  rewrite Hb, String.eqb_refl. reflexivity.
Qed.
End GroupByFacts.

(** ** [sortExpenses] *)

Lemma insertByName_perm a sorted :
  Permutation (insertByName a sorted) (a :: sorted).
Proof.
  induction sorted as [|b rest IH]; simpl.
  - apply Permutation_refl.
  - destruct (compareByName a b <=? 0)%Z.
    + apply Permutation_refl.
    + eapply perm_trans; [apply perm_skip, IH|apply perm_swap].
Qed.

Lemma sortExpenses_perm expenses :
  Permutation (sortExpenses expenses) expenses.
Proof.
  induction expenses as [|a rest IH]; simpl.
  - constructor.
  - eapply perm_trans; [apply insertByName_perm|apply perm_skip, IH].
Qed.

Lemma sortExpenses_singleton a : sortExpenses [a] = [a].
Proof. reflexivity. Qed.

(** ** The subscriber *)

Lemma pushOrMerge_not_by_date expenseGroup groups :
  pushOrMerge false expenseGroup groups = groups ++ [expenseGroup].
Proof.
  unfold pushOrMerge. rewrite orb_true_r. reflexivity.
Qed.

Lemma mergeIntoSameDate_dates expenseGroup groups :
  map ExpenseGroup.date (mergeIntoSameDate expenseGroup groups)
  = map ExpenseGroup.date groups.
Proof.
  induction groups as [|other rest IH]; simpl.
  - reflexivity.
  - destruct (sameDate expenseGroup other); simpl.
    + reflexivity.
    + f_equal. exact IH.
Qed.

Lemma find_sameDate_None expenseGroup groups :
  find (sameDate expenseGroup) groups = None ->
  ~ In (ExpenseGroup.date expenseGroup) (map ExpenseGroup.date groups).
Proof.
  intros Hfind Hin. apply in_map_iff in Hin. destruct Hin as [other [Hd Hin]].
  apply (find_none _ _ Hfind) in Hin. unfold sameDate in Hin.
  rewrite Hd, String.eqb_refl in Hin. discriminate.
Qed.

(** Under a grouping by date a group is merged into the group of its
    date, or pushed with a date that no group has yet. *)
Lemma pushOrMerge_by_date expenseGroup groups :
  (In (ExpenseGroup.date expenseGroup) (map ExpenseGroup.date groups) /\
   map ExpenseGroup.date (pushOrMerge true expenseGroup groups)
   = map ExpenseGroup.date groups)
  \/
  (~ In (ExpenseGroup.date expenseGroup) (map ExpenseGroup.date groups) /\
   pushOrMerge true expenseGroup groups = groups ++ [expenseGroup]).
Proof.
  unfold pushOrMerge.
  destruct (find (sameDate expenseGroup) groups) as [other|] eqn:Hfind; simpl.
  - left. split; [|apply mergeIntoSameDate_dates].
    apply find_some in Hfind. destruct Hfind as [Hin Hsame].
    unfold sameDate in Hsame. apply String.eqb_eq in Hsame.
    rewrite <- Hsame. apply in_map; exact Hin.
  - right. split; [apply find_sameDate_None; exact Hfind|reflexivity].
Qed.

Lemma pushOrMerge_dates_unique expenseGroup groups :
  NoDup (map ExpenseGroup.date groups) ->
  NoDup (map ExpenseGroup.date (pushOrMerge true expenseGroup groups)).
Proof.
  intros Hnd.
  destruct (pushOrMerge_by_date expenseGroup groups) as [[_ Heq]|[Hfresh Heq]];
    rewrite Heq; [exact Hnd|].
  rewrite map_app. simpl.
  apply NoDup_app; [exact Hnd|repeat constructor; intros []|].
  intros d Hd [Hin|[]]. subst d. exact (Hfresh Hd).
Qed.

(** The subscriber keeps an invariant of the groups over the partitions
    of a page, and does not throw on partitions that have a member. *)
Lemma forEach_subscriberNext (P : list ExpenseGroup.t -> Prop)
  groupByDate parts :
  (forall first rest groups, In (first :: rest) parts -> P groups ->
     P (pushOrMerge groupByDate
          (ExpenseGroup.mk (Expense.date first) (sortExpenses (first :: rest)))
          groups)) ->
  Forall (fun expenses => expenses <> []) parts ->
  forall this groups,
  expenseGroups this = Some groups -> P groups ->
  exists groups',
    forEach (subscriberNext groupByDate) parts this
    = Returned (set_expenseGroups (Some groups') this) /\ P groups'.
Proof.
  induction parts as [|expenses parts IH]; intros Hstep Hne this groups Hg HP.
  - exists groups. split; [|exact HP]. simpl.
    destruct this; simpl in *; subst; reflexivity.
  - inversion Hne as [|? ? Hexp Hparts]; subst.
    destruct expenses as [|first rest]; [contradiction|].
    simpl. rewrite Hg. simpl.
    set (pushed := pushOrMerge groupByDate _ groups).
    assert (Hpushed : P pushed)
      by (apply (Hstep first rest groups); [left; reflexivity|exact HP]).
    destruct (IH (fun f r gs Hin => Hstep f r gs (or_intror Hin)) Hparts
                (set_expenseGroups (Some pushed) this) pushed eq_refl Hpushed)
      as [groups' [Hrun HP']].
    exists groups'. split; [|exact HP']. rewrite Hrun. reflexivity.
Qed.

Lemma onExpensePage_spec sub expensePage this :
  exists this',
    onExpensePage sub expensePage this = (this', [Calls (next sub)]) /\
    expenseGroups this' = Some (keptGroups this) /\
    forall groups,
      set_expenseGroups (Some groups) this'
      = set_expenseGroups (Some groups)
          (set_lastPageReached (Page.last expensePage) this).
Proof.
  unfold onExpensePage, keptGroups, groupsOf.
  destruct this as [d g l ld c cs]; simpl.
  destruct (Criteria.page c =? 0)%nat; simpl.
  - eexists. repeat split.
  - destruct g; simpl; eexists; repeat split.
Qed.

Lemma respond_Emits (P : list ExpenseGroup.t -> Prop) sub expensePage this :
  (forall first rest groups, P groups ->
     P (pushOrMerge (groupByDate sub)
          (ExpenseGroup.mk (Expense.date first) (sortExpenses (first :: rest)))
          groups)) ->
  P (keptGroups this) ->
  exists groups',
    respond sub (Emits expensePage) this
    = Returned (set_loading false
                  (set_expenseGroups (Some groups')
                     (set_lastPageReached (Page.last expensePage) this)),
                [Calls (next sub)]) /\
    P groups'.
Proof.
  intros Hstep HP. unfold respond.
  destruct (onExpensePage_spec sub expensePage this) as [this' [Hon [Hg Hset]]].
  rewrite Hon.
  destruct (forEach_subscriberNext P (groupByDate sub)
              (parts := partitions (groupingKey (groupByDate sub))
                          (Page.content expensePage)))
    with (this := this') (groups := keptGroups this)
    as [groups' [Hrun HP']].
  - intros first rest groups _. apply Hstep.
  - apply partitions_nonempty.
  - exact Hg.
  - exact HP.
  - exists groups'. split; [|exact HP'].
    rewrite Hrun. simpl. rewrite Hset. reflexivity.
Qed.

(** ** The synchronous part of a load *)

Lemma normalise_fields ym c :
  Criteria.page (normalise ym c) = Criteria.page c /\
  Criteria.size (normalise ym c) = Criteria.size c /\
  Criteria.sort (normalise ym c) = Criteria.sort c /\
  Criteria.yearMonth (normalise ym c) = Some ym.
Proof.
  destruct c as [p sz so [[|? ?]|] [[|? ?]|] y]; repeat split.
Qed.

Lemma normalise_idempotent ym c : normalise ym (normalise ym c) = normalise ym c.
Proof.
  destruct c as [p sz so [[|? ?]|] [[|? ?]|] y]; reflexivity.
Qed.

Lemma loadExpenses_call next this :
  loadExpenses next this
  = (set_loading true
       (set_searchCriteria
          (normalise (formatPeriod (date this)) (searchCriteria this)) this),
     Build_Subscription
       (String.prefix "date" (Criteria.sort (searchCriteria this))) next,
     [GetExpenses (normalise (formatPeriod (date this)) (searchCriteria this))]).
Proof.
  unfold loadExpenses. simpl.
  destruct (normalise_fields (formatPeriod (date this)) (searchCriteria this))
    as [_ [_ [Hsort _]]].
  rewrite Hsort. reflexivity.
Qed.

(** ** The response to a load *)

(** C9: every partition that the grouping of a page produces has a first
    record, so reading [expenses[0].date] in the subscriber never fails:
    whatever the response, the subscription of [loadExpenses] returns and
    never throws. *)
Theorem first_record_of_partition_defined :
  (forall groupByDate content,
     Forall (fun expenses => exists first rest, expenses = first :: rest)
       (partitions (groupingKey groupByDate) content)) /\
  (forall sub response this,
     exists this' effects, respond sub response this = Returned (this', effects)).
Proof.
  split.
  - intros groupByDate content.
    eapply Forall_impl; [|apply partitions_nonempty].
    intros [|first rest] Hne; [contradiction|]. exists first, rest; reflexivity.
  - intros sub [expensePage|error] this.
    + destruct (respond_Emits (fun _ => True) sub expensePage this)
        as [groups' [Hrun _]]; [intros; exact I|exact I|].
      rewrite Hrun. eexists; eexists; reflexivity.
    + simpl. eexists; eexists; reflexivity.
Qed.

(** C1: when the fetch of [loadExpenses] fails, [loading] is cleared and
    the error goes once to the toast service, with the fixed message and
    the error itself, but the callback [next] is not called: it is only
    called in the project function, on a page.  [loadCategories] calls it
    in [finalize], and so also on a failure. *)
Theorem failed_load_does_not_call_next next error this :
  exists this',
    settle (loadExpenses next) (Fails error) this
    = Returned (this',
                [GetExpenses (searchCriteria this');
                 DisplayErrorToast "Could not load expenses" error]) /\
    loading this' = false /\
    filter isCall
      [GetExpenses (searchCriteria this');
       DisplayErrorToast "Could not load expenses" error] = [] /\
    snd (respondCategories next (Fails error)
           (fst (fst (loadCategories next this))))
    = [DisplayErrorToast "Could not load categories" error; Calls next].
Proof.
  exists (set_loading false (afterCall (loadExpenses next) this)).
  repeat split; reflexivity.
Qed.

(** C2: when the fetch of [loadExpenses] fails, the groups and the flag
    of the last page are what they were before the call, [loading] ends
    up [false] and the toast service gets exactly one error; after a
    failed first load of a new component the groups are still [null]. *)
Theorem failed_load_keeps_aggregation next error :
  (forall this,
     exists this' effects,
       settle (loadExpenses next) (Fails error) this = Returned (this', effects) /\
       expenseGroups this' = expenseGroups this /\
       lastPageReached this' = lastPageReached this /\
       loading this' = false /\
       filter isToast effects
       = [DisplayErrorToast "Could not load expenses" error]) /\
  (forall today,
     exists this' effects,
       settle (loadExpenses next) (Fails error) (initial today)
       = Returned (this', effects) /\
       expenseGroups this' = None).
Proof.
  split.
  - intros this. eexists; eexists. split; [reflexivity|].
    repeat split; reflexivity.
  - intros today. eexists; eexists. split; reflexivity.
Qed.

(** ** The methods *)

Lemma onExpensePage_first sub expensePage this :
  Criteria.page (searchCriteria this) = 0 ->
  onExpensePage sub expensePage this
  = (set_expenseGroups (Some [])
       (set_lastPageReached (Page.last expensePage) this),
     [Calls (next sub)]).
Proof.
  intros Hpage. unfold onExpensePage. simpl. rewrite Hpage. reflexivity.
Qed.

(** C3, as the component has it: [reloadExpenses] sets the page index to
    [0] and calls [loadExpenses], which marks the component as loading
    and requests page [0]; the flag of the last page is not cleared by
    the call: it keeps its value until a page arrives, and then takes
    the flag of that page.  The groups are then built from that page
    alone: what the response leaves is the same whatever groups the
    component had. *)
Theorem reload_requests_first_page ev this :
  let this' := afterCall (reloadExpenses ev) this in
  Criteria.page (searchCriteria this') = 0 /\
  lastPageReached this' = lastPageReached this /\
  loading this' = true /\
  effectsOf (reloadExpenses ev) this = [GetExpenses (searchCriteria this')] /\
  next (subscriptionOf (reloadExpenses ev) this) = completeIfEvent ev /\
  (forall expensePage,
     exists this'' effects,
       settle (reloadExpenses ev) (Emits expensePage) this
       = Returned (this'', effects) /\
       lastPageReached this'' = Page.last expensePage /\
       keptGroups this' = [] /\
       forall groups,
         settle (reloadExpenses ev) (Emits expensePage)
           (set_expenseGroups groups this)
         = Returned (this'', effects)).
Proof.
  assert (Hpage : Criteria.page
                    (searchCriteria (afterCall (reloadExpenses ev) this)) = 0).
  { unfold afterCall, reloadExpenses. rewrite loadExpenses_call. simpl.
    apply normalise_fields. }
  assert (Hkept : keptGroups (afterCall (reloadExpenses ev) this) = [])
    by (unfold keptGroups; rewrite Hpage; reflexivity).
  cbv zeta. repeat split; try reflexivity; try exact Hpage.
  intros expensePage.
  assert (Hsame : forall groups,
             settle (reloadExpenses ev) (Emits expensePage)
               (set_expenseGroups groups this)
             = settle (reloadExpenses ev) (Emits expensePage) this).
  { intros groups. unfold settle, reloadExpenses. rewrite !loadExpenses_call.
    cbn [date searchCriteria set_expenseGroups set_searchCriteria].
    unfold respond.
    rewrite !onExpensePage_first; [reflexivity| |];
      simpl; apply normalise_fields. }
  assert (Hreturns : exists this'' effects,
             settle (reloadExpenses ev) (Emits expensePage) this
             = Returned (this'', effects) /\
             lastPageReached this'' = Page.last expensePage).
  { unfold settle.
    destruct (reloadExpenses ev this) as [[this1 sub] requested].
    destruct (respond_Emits (fun _ => True) sub expensePage this1)
      as [groups' [Hrun _]]; [intros; exact I|exact I|].
    rewrite Hrun. simpl. eexists; eexists. split; reflexivity. }
  destruct Hreturns as [this'' [effects [Hrun Hlast]]].
  exists this'', effects. split; [exact Hrun|]. split; [exact Hlast|].
  split; [exact Hkept|].
  intros groups. rewrite Hsame. exact Hrun.
Qed.

(** C8: when the search form changes (name, category ids or sort) and
    when the period changes ([addMonths]), the page index of the search
    criteria is [0] when the load is requested, and the request carries
    that page index and the new values. *)
Theorem criteria_change_resets_page :
  (forall value this,
     let this' := afterCall (onSearchFormValueChanges value) this in
     Criteria.page (searchCriteria this') = 0 /\
     Criteria.sort (searchCriteria this') = form_sort value /\
     effectsOf (onSearchFormValueChanges value) this
     = [GetExpenses (searchCriteria this')]) /\
  (forall number this,
     let this' := afterCall (addMonths number) this in
     Criteria.page (searchCriteria this') = 0 /\
     date this' = dateFnsAddMonths (date this) number /\
     Criteria.yearMonth (searchCriteria this')
     = Some (formatPeriod (dateFnsAddMonths (date this) number)) /\
     effectsOf (addMonths number) this = [GetExpenses (searchCriteria this')]).
Proof.
  split.
  - intros value this.
    unfold afterCall, effectsOf, onSearchFormValueChanges.
    rewrite loadExpenses_call. simpl.
    destruct (normalise_fields (formatPeriod (date this))
                (Criteria.mk 0 (Criteria.size (searchCriteria this))
                   (form_sort value) (form_name value) (form_categoryIds value)
                   (Criteria.yearMonth (searchCriteria this))))
      as [Hpage [_ [Hsort _]]].
    repeat split; assumption.
  - intros number this.
    unfold afterCall, effectsOf, addMonths, reloadExpenses.
    rewrite loadExpenses_call. simpl.
    destruct (normalise_fields
                (formatPeriod (dateFnsAddMonths (date this) number))
                (Criteria.with_page 0 (searchCriteria this)))
      as [Hpage [_ [_ Hym]]].
    repeat split; assumption.
Qed.

(** ** Loading pages *)

(** C6: loading the same page twice as a first page (page index [0])
    leaves the component as loading it once does. *)
Theorem first_page_load_idempotent next expensePage this :
  Criteria.page (searchCriteria this) = 0 ->
  exists once effects,
    settle (loadExpenses next) (Emits expensePage) this
    = Returned (once, effects) /\
    settle (loadExpenses next) (Emits expensePage) once
    = Returned (once, effects).
Proof.
  intros Hpage.
  set (ym := formatPeriod (date this)).
  set (sub := Build_Subscription
                (String.prefix "date" (Criteria.sort (searchCriteria this))) next).
  set (this1 := set_loading true
                  (set_searchCriteria (normalise ym (searchCriteria this)) this)).
  destruct (respond_Emits (fun _ => True) sub expensePage this1)
    as [groups' [Hrun _]]; [intros; exact I|exact I|].
  destruct (normalise_fields ym (searchCriteria this)) as [Hp [_ [Hsort _]]].
  set (once := set_loading false
                 (set_expenseGroups (Some groups')
                    (set_lastPageReached (Page.last expensePage) this1))).
  assert (Hsame : respond sub (Emits expensePage)
                    (set_loading true
                       (set_searchCriteria (normalise ym (searchCriteria this))
                          once))
                  = respond sub (Emits expensePage) this1).
  { unfold respond. rewrite !onExpensePage_first; [reflexivity| |];
      simpl; rewrite Hp; exact Hpage. }
  exists once, ([GetExpenses (normalise ym (searchCriteria this))]
                ++ [Calls next]).
  split; unfold settle; rewrite loadExpenses_call.
  - fold ym sub this1. rewrite Hrun. reflexivity.
  - change (date once) with (date this).
    change (searchCriteria once) with (normalise ym (searchCriteria this)).
    fold ym. rewrite normalise_idempotent, Hsort. fold sub.
    rewrite Hsame, Hrun. reflexivity.
Qed.

Lemma keptGroups_loadExpenses next this :
  keptGroups (afterCall (loadExpenses next) this) = keptGroups this.
Proof.
  unfold afterCall. rewrite loadExpenses_call. unfold keptGroups, groupsOf. simpl.
  destruct (normalise_fields (formatPeriod (date this)) (searchCriteria this))
    as [Hpage _].
  rewrite Hpage. reflexivity.
Qed.

Lemma forEach_singletons content :
  forall this groups,
  expenseGroups this = Some groups ->
  forEach (subscriberNext false) (map (fun e => [e]) content) this
  = Returned (set_expenseGroups
                (Some (groups
                         ++ map (fun e => ExpenseGroup.mk (Expense.date e) [e])
                              content))
                this).
Proof.
  induction content as [|e content IH]; intros this groups Hg; simpl.
  - rewrite app_nil_r. destruct this; simpl in *; subst; reflexivity.
  - rewrite Hg. simpl. rewrite pushOrMerge_not_by_date.
    set (pushed := groups ++ [ExpenseGroup.mk (Expense.date e) [e]]).
    rewrite (IH (set_expenseGroups (Some pushed) this) pushed eq_refl).
    unfold pushed. rewrite <- app_assoc. reflexivity.
Qed.

(** C7: under a sort that does not start with "date", a page whose
    records have pairwise different identifiers adds one group per
    record, in the order of the page, each holding that record alone,
    whether or not records share a date. *)
Theorem non_date_sort_groups_each_record next content last this :
  String.prefix "date" (Criteria.sort (searchCriteria this)) = false ->
  NoDup (map Expense.id content) ->
  exists this' effects,
    settle (loadExpenses next) (Emits (Page.mk content last)) this
    = Returned (this', effects) /\
    expenseGroups this'
    = Some (keptGroups this
              ++ map (fun e => ExpenseGroup.mk (Expense.date e) [e]) content).
Proof.
  intros Hsort Hids.
  pose proof (keptGroups_loadExpenses next this) as Hkept.
  unfold afterCall in Hkept.
  unfold settle. rewrite loadExpenses_call in *. rewrite Hsort. simpl in Hkept.
  set (sub := Build_Subscription false next).
  set (this1 := set_loading true _) in *.
  unfold respond.
  destruct (onExpensePage_spec sub (Page.mk content last) this1)
    as [this2 [Hon [Hg _]]].
  rewrite Hon. simpl.
  change (groupingKey false) with Expense.id.
  rewrite (partitions_distinct Expense.id content Hids).
  rewrite (forEach_singletons content this2 Hg). simpl.
  eexists; eexists. split; [reflexivity|].
  simpl. rewrite Hkept. reflexivity.
Qed.

Lemma forEach_app {A S : Type} (h : A -> S -> Result S) l1 l2 s :
  forEach h (l1 ++ l2) s = (s' <- forEach h l1 s ;; forEach h l2 s').
Proof.
  revert s. induction l1 as [|a l1 IH]; intros s; simpl.
  - reflexivity.
  - destruct (h a s) as [s'|e]; simpl; [apply IH|reflexivity].
Qed.

Lemma filter_singleton_split {A : Type} (f : A -> bool) l x :
  filter f l = [x] ->
  exists l1 l2, l = l1 ++ x :: l2 /\ filter f l1 = [] /\ filter f l2 = [].
Proof.
  induction l as [|y l IH]; simpl; intros Hf.
  - discriminate.
  - destruct (f y) eqn:Hy.
    + injection Hf as Hx Hl. subst y. exists [], l.
      repeat split; try reflexivity; assumption.
    + destruct (IH Hf) as [l1 [l2 [Hl [H1 H2]]]].
      exists (y :: l1), l2. subst l. simpl. rewrite Hy.
      repeat split; try reflexivity; assumption.
Qed.

Lemma wellGrouped_ofOtherDate d groups :
  wellGrouped Expense.date groups ->
  ofKey d groups = [] ->
  Forall (ofOtherDate d) (map snd groups).
Proof.
  unfold wellGrouped, ofKey.
  induction groups as [|[k members] groups IH]; intros Hw Hnone; simpl.
  - constructor.
  - inversion Hw as [|? ? [Hne Hkeys] Hrest]; subst. simpl in *.
    destruct (String.eqb_spec k d) as [Hk|Hk]; [discriminate|].
    constructor; [|apply IH; assumption].
    destruct members as [|first rest]; [contradiction|].
    exists first, rest. split; [reflexivity|].
    inversion Hkeys; subst. congruence.
Qed.

Lemma partitions_single_date d before b after :
  Expense.date b = d ->
  Forall (fun e => Expense.date e <> d) before ->
  Forall (fun e => Expense.date e <> d) after ->
  exists parts1 parts2,
    partitions Expense.date (before ++ b :: after) = parts1 ++ [b] :: parts2 /\
    Forall (ofOtherDate d) parts1 /\ Forall (ofOtherDate d) parts2.
Proof.
  intros Hb Hbefore Hafter.
  pose proof (@groupBy_single_key _ Expense.date d before b after
                Hb Hbefore Hafter) as Hd.
  pose proof (groupBy_wellGrouped Expense.date (before ++ b :: after)) as Hw.
  unfold partitions.
  destruct (filter_singleton_split _ _ Hd) as [g1 [g2 [Hg [H1 H2]]]].
  rewrite Hg in *. unfold wellGrouped in Hw.
  apply Forall_app in Hw. destruct Hw as [Hw1 Hw2].
  inversion Hw2 as [|? ? _ Hw2']; subst.
  exists (map snd g1), (map snd g2). rewrite map_app. simpl.
  split; [reflexivity|].
  split; apply wellGrouped_ofOtherDate; assumption.
Qed.

Lemma mergeIntoSameDate_other_date d expenseGroup groups :
  ExpenseGroup.date expenseGroup <> d ->
  groupsOfDate d (mergeIntoSameDate expenseGroup groups) = groupsOfDate d groups.
Proof.
  intros Hneq. unfold groupsOfDate.
  induction groups as [|other rest IH]; simpl.
  - reflexivity.
  - unfold sameDate at 1.
    destruct (String.eqb_spec (ExpenseGroup.date other)
                (ExpenseGroup.date expenseGroup)) as [Hsame|Hdiff]; simpl.
    + destruct (String.eqb_spec (ExpenseGroup.date other) d) as [Hd|_];
        [|reflexivity].
      exfalso. apply Hneq. rewrite <- Hsame. exact Hd.
    + rewrite IH. reflexivity.
Qed.

Lemma pushOrMerge_other_date d groupByDate expenseGroup groups :
  ExpenseGroup.date expenseGroup <> d ->
  groupsOfDate d (pushOrMerge groupByDate expenseGroup groups)
  = groupsOfDate d groups.
Proof.
  intros Hneq. unfold pushOrMerge.
  destruct (_ || _).
  - unfold groupsOfDate. rewrite filter_app. simpl.
    destruct (String.eqb_spec (ExpenseGroup.date expenseGroup) d);
      [contradiction|apply app_nil_r].
  - apply mergeIntoSameDate_other_date; exact Hneq.
Qed.

Lemma pushOrMerge_same_date expenseGroup groups other :
  groupsOfDate (ExpenseGroup.date expenseGroup) groups = [other] ->
  groupsOfDate (ExpenseGroup.date expenseGroup)
    (pushOrMerge true expenseGroup groups)
  = [ExpenseGroup.mk (ExpenseGroup.date other)
       (sortExpenses (ExpenseGroup.expenses other
                        ++ ExpenseGroup.expenses expenseGroup))].
Proof.
  intros Hone.
  destruct (filter_singleton_split _ _ Hone) as [g1 [g2 [Hg [H1 H2]]]].
  assert (Hother : ExpenseGroup.date other = ExpenseGroup.date expenseGroup).
  { assert (Hin : In other (groupsOfDate (ExpenseGroup.date expenseGroup) groups))
      by (rewrite Hone; left; reflexivity).
    apply filter_In in Hin. apply String.eqb_eq, Hin. }
  assert (Hfresh : ~ In (ExpenseGroup.date expenseGroup)
                     (map ExpenseGroup.date g1)).
  { intros Hin. apply in_map_iff in Hin. destruct Hin as [g [Hd Hin]].
    assert (Hgin : In g (filter (fun g => (ExpenseGroup.date g
                                           =? ExpenseGroup.date expenseGroup)%string)
                           g1))
      by (apply filter_In; split; [exact Hin|apply String.eqb_eq; exact Hd]).
    rewrite H1 in Hgin. exact Hgin. }
  subst groups.
  assert (Hfind : find (sameDate expenseGroup) (g1 ++ other :: g2) = Some other /\
                  mergeIntoSameDate expenseGroup (g1 ++ other :: g2)
                  = g1 ++ ExpenseGroup.mk (ExpenseGroup.date other)
                            (sortExpenses (ExpenseGroup.expenses other
                                             ++ ExpenseGroup.expenses expenseGroup))
                       :: g2).
  { clear Hone H1. induction g1 as [|g g1 IH]; simpl.
    - unfold sameDate. rewrite Hother, String.eqb_refl. split; reflexivity.
    - simpl in Hfresh.
      assert (Hg : sameDate expenseGroup g = false).
      { unfold sameDate. apply String.eqb_neq. intros Heq.
        apply Hfresh. left; exact Heq. }
      rewrite Hg.
      destruct IH as [Hf Hm]; [intros Hin; apply Hfresh; right; exact Hin|].
      rewrite Hf, Hm. split; reflexivity. }
  destruct Hfind as [Hfind Hmerge].
  unfold pushOrMerge. rewrite Hfind, Hmerge. simpl.
  unfold groupsOfDate in *. rewrite filter_app, H1. simpl.
  rewrite Hother, String.eqb_refl, H2. reflexivity.
Qed.

Lemma forEach_other_dates d groupByDate (X : list ExpenseGroup.t) parts :
  Forall (ofOtherDate d) parts ->
  forall this groups,
  expenseGroups this = Some groups ->
  groupsOfDate d groups = X ->
  exists groups',
    forEach (subscriberNext groupByDate) parts this
    = Returned (set_expenseGroups (Some groups') this) /\
    groupsOfDate d groups' = X.
Proof.
  intros Hparts this groups Hg HX.
  apply (@forEach_subscriberNext (fun gs => groupsOfDate d gs = X)
           groupByDate parts) with (groups := groups); try assumption.
  - intros first rest gs Hin Hgs.
    rewrite Forall_forall in Hparts.
    destruct (Hparts _ Hin) as [f [r [Heq Hdate]]]. inversion Heq; subst f r.
    rewrite pushOrMerge_other_date; [exact Hgs|exact Hdate].
  - eapply Forall_impl; [|exact Hparts].
    intros p [f [r [Heq _]]]. subst p. discriminate.
Qed.

(** C4: under a sort by date the component has one group of date [d],
    holding [a] and [c]; a page after the first brings one expense [b] of
    date [d], among expenses of other dates, and the name of [b] is not
    before the one of [a] and is before the one of [c].  Then the
    component has one group of date [d], and it holds [a], [b] and [c], in
    this order. *)
Theorem merge_into_group_of_same_date
  next last this groups d a b c before after :
  sortsByDate this ->
  Criteria.page (searchCriteria this) <> 0 ->
  expenseGroups this = Some groups ->
  groupsOfDate d groups = [ExpenseGroup.mk d [a; c]] ->
  Expense.date b = d ->
  Forall (fun e => Expense.date e <> d) before ->
  Forall (fun e => Expense.date e <> d) after ->
  (compareByName a b <= 0)%Z ->
  (0 < compareByName c b)%Z ->
  exists this' effects,
    settle (loadExpenses next) (Emits (Page.mk (before ++ b :: after) last)) this
    = Returned (this', effects) /\
    groupsOfDate d (groupsOf this') = [ExpenseGroup.mk d [a; b; c]].
Proof.
  intros Hsort Hpage Hgroups Hd Hdate Hbefore Hafter Hab Hcb.
  unfold sortsByDate in Hsort.
  assert (Hsorted : sortExpenses [a; c; b] = [a; b; c]).
  { simpl.
    destruct (Z.leb_spec (compareByName c b) 0) as [Hle|_]; [lia|].
    simpl. destruct (Z.leb_spec (compareByName a b) 0) as [_|Hgt]; [|lia].
    reflexivity. }
  destruct (@partitions_single_date d before b after Hdate Hbefore Hafter)
    as [parts1 [parts2 [Hparts [Hp1 Hp2]]]].
  unfold settle. rewrite loadExpenses_call, Hsort.
  set (sub := Build_Subscription true next).
  set (this1 := set_loading true _).
  assert (Hon : onExpensePage sub (Page.mk (before ++ b :: after) last) this1
                = (set_lastPageReached last this1, [Calls next])).
  { unfold onExpensePage. simpl.
    destruct (normalise_fields (formatPeriod (date this)) (searchCriteria this))
      as [Hp _].
    rewrite Hp. apply Nat.eqb_neq in Hpage. rewrite Hpage, Hgroups.
    reflexivity. }
  unfold respond. rewrite Hon.
  change (groupingKey (groupByDate sub)) with Expense.date.
  cbn [Page.content groupByDate sub]. rewrite Hparts, forEach_app.
  destruct (@forEach_other_dates d true _ parts1 Hp1
              (set_lastPageReached last this1) groups Hgroups Hd)
    as [groups1 [Hrun1 Hd1]].
  rewrite Hrun1. cbn [bind forEach subscriberNext expenseGroups set_expenseGroups].
  set (merged := pushOrMerge true _ groups1).
  assert (Hmerged : groupsOfDate d merged = [ExpenseGroup.mk d [a; b; c]]).
  { unfold merged. rewrite sortExpenses_singleton.
    pose proof (@pushOrMerge_same_date
                  (ExpenseGroup.mk (Expense.date b) [b]) groups1
                  (ExpenseGroup.mk d [a; c])) as Hm.
    cbn [ExpenseGroup.date ExpenseGroup.expenses app] in Hm.
    rewrite Hdate in *. rewrite (Hm Hd1), Hsorted. reflexivity. }
  destruct (@forEach_other_dates d true _ parts2 Hp2
              (set_expenseGroups (Some merged)
                 (set_expenseGroups (Some groups1)
                    (set_lastPageReached last this1)))
              merged eq_refl Hmerged)
    as [groups2 [Hrun2 Hd2]].
  rewrite Hrun2. cbn [bind].
  eexists; eexists. split; [reflexivity|]. exact Hd2.
Qed.

(** ** Sequences of loads *)

Lemma invoke_spec m this :
  (expenseGroups (afterCall (invoke m) this) = expenseGroups this \/
   expenseGroups (afterCall (invoke m) this) = None) /\
  groupByDate (subscriptionOf (invoke m) this)
  = String.prefix "date"
      (Criteria.sort (searchCriteria (afterCall (invoke m) this))) /\
  Criteria.sort (searchCriteria (afterCall (invoke m) this))
  = match m with
    | SearchFormValueChanges value => form_sort value
    | _ => Criteria.sort (searchCriteria this)
    end.
Proof.
  unfold afterCall, subscriptionOf.
  destruct m as [|ev|ev|number|value];
    unfold invoke, addMonths, reloadExpenses, loadNextExpensePage,
      onSearchFormValueChanges;
    rewrite loadExpenses_call; simpl;
    match goal with
    | |- context [normalise ?ym ?c] =>
        destruct (normalise_fields ym c) as [_ [_ [Hsort _]]]; rewrite Hsort
    end;
    repeat split; auto.
Qed.

(** A response keeps an invariant of the groups that holds of no groups
    and that pushing or merging a group of a page keeps. *)
Lemma respond_invariant (P : list ExpenseGroup.t -> Prop) sub response this :
  P [] ->
  P (groupsOf this) ->
  (forall first rest groups, P groups ->
     P (pushOrMerge (groupByDate sub)
          (ExpenseGroup.mk (Expense.date first) (sortExpenses (first :: rest)))
          groups)) ->
  exists this' effects,
    respond sub response this = Returned (this', effects) /\
    P (groupsOf this') /\
    searchCriteria this' = searchCriteria this.
Proof.
  intros Hnil Hthis Hstep.
  destruct response as [expensePage|error].
  - destruct (respond_Emits P sub expensePage this Hstep) as [groups' [Hrun HP]].
    + unfold keptGroups.
      destruct (Criteria.page (searchCriteria this) =? 0)%nat; assumption.
    + rewrite Hrun. eexists; eexists. split; [reflexivity|].
      split; [exact HP|reflexivity].
  - simpl. eexists; eexists. split; [reflexivity|].
    split; [exact Hthis|reflexivity].
Qed.

Lemma settle_invariant (P : list ExpenseGroup.t -> Prop) m response this :
  P [] ->
  P (groupsOf this) ->
  (forall first rest groups, P groups ->
     P (pushOrMerge
          (String.prefix "date"
             (Criteria.sort (searchCriteria (afterCall (invoke m) this))))
          (ExpenseGroup.mk (Expense.date first) (sortExpenses (first :: rest)))
          groups)) ->
  exists this' effects,
    settle (invoke m) response this = Returned (this', effects) /\
    P (groupsOf this') /\
    searchCriteria this' = searchCriteria (afterCall (invoke m) this).
Proof.
  intros Hnil Hthis Hstep.
  destruct (invoke_spec m this) as [Hgroups [Hsub _]].
  unfold settle, afterCall, subscriptionOf in *.
  destruct (invoke m this) as [[this1 sub] requested]; simpl in *.
  destruct (respond_invariant P sub response this1) as [this' [fx [Hrun [HP Hc]]]].
  - exact Hnil.
  - unfold groupsOf in *. destruct Hgroups as [Heq|Heq]; rewrite Heq;
      assumption.
  - rewrite Hsub. exact Hstep.
  - rewrite Hrun. simpl. eexists; eexists. split; [reflexivity|].
    split; assumption.
Qed.

Lemma run_dates_unique steps :
  forall this,
  sortsByDate this ->
  datesUnique this ->
  Forall (fun step : Step => keepsDateSort (fst step)) steps ->
  exists final,
    run steps this = Returned final /\ datesUnique final /\ sortsByDate final.
Proof.
  induction steps as [|[m response] steps IH]; intros this Hsort Huniq Hkeep.
  - exists this. repeat split; assumption.
  - inversion Hkeep as [|? ? Hm Hrest]; subst. simpl in Hm.
    assert (Hafter : String.prefix "date"
              (Criteria.sort (searchCriteria (afterCall (invoke m) this)))
            = true).
    { destruct (invoke_spec m this) as [_ [_ Hs]]. rewrite Hs.
      destruct m; try exact Hsort. exact Hm. }
    destruct (settle_invariant
                (fun groups => NoDup (map ExpenseGroup.date groups))
                m response this) as [this' [fx [Hrun [HP Hc]]]].
    + constructor.
    + exact Huniq.
    + intros first rest groups Hnd. rewrite Hafter.
      apply pushOrMerge_dates_unique; exact Hnd.
    + simpl. rewrite Hrun. simpl. apply IH.
      * unfold sortsByDate. rewrite Hc. exact Hafter.
      * exact HP.
      * exact Hrest.
Qed.

(** C10: the component starts with no groups and a sort that starts with
    "date", and every load that follows is made under such a sort.  Then
    after these loads no two groups have the same date; a group of a page
    is merged into the group of its date, which leaves the dates of the
    groups as they are, or pushed when no group has its date. *)
Theorem date_keys_unique steps this :
  sortsByDate this ->
  groupsOf this = [] ->
  Forall (fun step : Step => keepsDateSort (fst step)) steps ->
  (exists final, run steps this = Returned final /\ datesUnique final) /\
  (forall expenseGroup groups,
     (In (ExpenseGroup.date expenseGroup) (map ExpenseGroup.date groups) /\
      map ExpenseGroup.date (pushOrMerge true expenseGroup groups)
      = map ExpenseGroup.date groups)
     \/
     (~ In (ExpenseGroup.date expenseGroup) (map ExpenseGroup.date groups) /\
      pushOrMerge true expenseGroup groups = groups ++ [expenseGroup])).
Proof.
  intros Hsort Hempty Hkeep. split.
  - destruct (@run_dates_unique steps this Hsort) as [final [Hrun [Hu _]]].
    + unfold datesUnique. rewrite Hempty. constructor.
    + exact Hkeep.
    + exists final. split; assumption.
  - apply pushOrMerge_by_date.
Qed.

Section ConsistentComparator.
(** ECMAScript requires [localeCompare] to be a consistent comparison
    function that defines a total ordering of the strings. *)
Hypothesis localeCompare_total :
  forall a b, (0 < localeCompare a b)%Z -> (localeCompare b a <= 0)%Z.
Hypothesis localeCompare_trans :
  forall a b c, (localeCompare a b <= 0)%Z -> (localeCompare b c <= 0)%Z ->
                (localeCompare a c <= 0)%Z.

Lemma insertByName_sorted a sorted :
  sortedByName sorted -> sortedByName (insertByName a sorted).
Proof.
  unfold sortedByName.
  induction sorted as [|b rest IH]; intros Hs; simpl.
  - repeat constructor.
  - inversion Hs as [|? ? Hrest Hb]; subst.
    destruct (Z.leb_spec (compareByName a b) 0) as [Hle|Hgt].
    + constructor; [exact Hs|]. constructor; [exact Hle|].
      eapply Forall_impl; [|exact Hb]. intros c Hbc.
      unfold nameLe, compareByName in *.
      eapply localeCompare_trans; eassumption.
    + constructor; [apply IH; exact Hrest|].
      eapply Permutation_Forall;
        [apply Permutation_sym, insertByName_perm|].
      constructor; [|exact Hb].
      unfold nameLe, compareByName in *.
      apply localeCompare_total; exact Hgt.
Qed.

Lemma sortExpenses_sorted expenses : sortedByName (sortExpenses expenses).
Proof.
  induction expenses as [|a rest IH]; simpl.
  - constructor.
  - apply insertByName_sorted, IH.
Qed.
Lemma mergeIntoSameDate_sorted expenseGroup groups :
  Forall (fun g => sortedByName (ExpenseGroup.expenses g)) groups ->
  Forall (fun g => sortedByName (ExpenseGroup.expenses g))
    (mergeIntoSameDate expenseGroup groups).
Proof.
  induction groups as [|other rest IH]; intros Hs; simpl.
  - constructor.
  - inversion Hs as [|? ? Hother Hrest]; subst.
    destruct (sameDate expenseGroup other).
    + constructor; [apply sortExpenses_sorted|exact Hrest].
    + constructor; [exact Hother|apply IH; exact Hrest].
Qed.

Lemma pushOrMerge_sorted groupByDate first rest groups :
  Forall (fun g => sortedByName (ExpenseGroup.expenses g)) groups ->
  Forall (fun g => sortedByName (ExpenseGroup.expenses g))
    (pushOrMerge groupByDate
       (ExpenseGroup.mk (Expense.date first) (sortExpenses (first :: rest)))
       groups).
Proof.
  intros Hs. unfold pushOrMerge.
  destruct (_ || _).
  - apply Forall_app. split; [exact Hs|].
    constructor; [apply sortExpenses_sorted|constructor].
  - apply mergeIntoSameDate_sorted; exact Hs.
Qed.

Lemma run_every_group_sorted steps :
  forall this,
  everyGroupSorted this ->
  exists final, run steps this = Returned final /\ everyGroupSorted final.
Proof.
  induction steps as [|[m response] steps IH]; intros this Hs.
  - exists this. split; [reflexivity|exact Hs].
  - destruct (settle_invariant
                (Forall (fun g => sortedByName (ExpenseGroup.expenses g)))
                m response this) as [this' [fx [Hrun [HP _]]]].
    + constructor.
    + exact Hs.
    + intros first rest groups. apply pushOrMerge_sorted.
    + simpl. rewrite Hrun. simpl. apply IH. exact HP.
Qed.

(** C5: after any sequence of loads of a new component, whatever the
    sort and the filters of each load and whatever the order of the
    records in each page, the expenses of every group are in ascending
    order of [localeCompare] on their names. *)
Theorem groups_sorted_by_name today steps :
  exists final,
    run steps (initial today) = Returned final /\
    Forall (fun g => StronglySorted nameLe (ExpenseGroup.expenses g))
      (groupsOf final).
Proof.
  apply run_every_group_sorted. constructor.
Qed.
End ConsistentComparator.

(** * Further properties of the expense list *)

(** ** Partitions keep the records *)

Section GroupByConserves.
Variable A : Type.
Variable key : A -> string.

Lemma addToGroup_perm a groups :
  Permutation (List.concat (map snd (addToGroup key a groups)))
    (List.concat (map snd groups) ++ [a]).
Proof.
  induction groups as [|[k members] rest IH]; simpl.
  - apply Permutation_refl.
  - destruct (k =? key a)%string; simpl.
    + rewrite <- !app_assoc. apply Permutation_app_head.
      apply Permutation_app_comm.
    + rewrite <- app_assoc. apply Permutation_app_head. exact IH.
Qed.

Lemma fold_addToGroup_perm content :
  forall groups,
  Permutation
    (List.concat (map snd (fold_left (fun gs a => addToGroup key a gs)
                             content groups)))
    (List.concat (map snd groups) ++ content).
Proof.
  induction content as [|a content IH]; intros groups; simpl.
  - rewrite app_nil_r. apply Permutation_refl.
  - eapply perm_trans; [apply IH|].
    eapply perm_trans; [apply Permutation_app_tail, addToGroup_perm|].
    rewrite <- app_assoc. apply Permutation_refl.
Qed.

Lemma partitions_perm content :
  Permutation (List.concat (partitions key content)) content.
Proof.
  unfold partitions, groupBy.
  apply (fold_addToGroup_perm content []).
Qed.

Lemma partition_same_key content first rest :
  In (first :: rest) (partitions key content) ->
  Forall (fun a => key a = key first) rest.
Proof.
  unfold partitions. intros Hin. apply in_map_iff in Hin.
  destruct Hin as [[k members] [Hsnd Hin]]. simpl in Hsnd. subst members.
  pose proof (groupBy_wellGrouped key content) as Hw.
  unfold wellGrouped in Hw. rewrite Forall_forall in Hw.
  destruct (Hw _ Hin) as [_ Hkeys]. simpl in Hkeys.
  inversion Hkeys as [|? ? Hfirst Hrest]; subst.
  eapply Forall_impl; [|exact Hrest]. intros a Ha. congruence.
Qed.
End GroupByConserves.

(** ** The subscriber, with the partitions it has seen *)

Lemma forEach_indexed
  (P : list (list Expense.t) -> list ExpenseGroup.t -> Prop) groupByDate parts :
  Forall (fun expenses => expenses <> []) parts ->
  (forall seen first rest groups, In (first :: rest) parts -> P seen groups ->
     P (seen ++ [first :: rest])
       (pushOrMerge groupByDate
          (ExpenseGroup.mk (Expense.date first) (sortExpenses (first :: rest)))
          groups)) ->
  forall seen this groups,
  expenseGroups this = Some groups -> P seen groups ->
  exists groups',
    forEach (subscriberNext groupByDate) parts this
    = Returned (set_expenseGroups (Some groups') this) /\
    P (seen ++ parts) groups'.
Proof.
  induction parts as [|expenses parts IH]; intros Hne Hstep seen this groups Hg HP.
  - exists groups. rewrite app_nil_r. split; [|exact HP]. simpl.
    destruct this; simpl in *; subst; reflexivity.
  - inversion Hne as [|? ? Hexp Hparts]; subst.
    destruct expenses as [|first rest]; [contradiction|].
    simpl. rewrite Hg. simpl.
    set (pushed := pushOrMerge groupByDate _ groups).
    assert (Hpushed : P (seen ++ [first :: rest]) pushed)
      by (apply (Hstep seen first rest groups); [left; reflexivity|exact HP]).
    destruct (IH Hparts
                (fun sn f r gs Hin => Hstep sn f r gs (or_intror Hin))
                (seen ++ [first :: rest])
                (set_expenseGroups (Some pushed) this) pushed eq_refl Hpushed)
      as [groups' [Hrun HP']].
    exists groups'. rewrite <- app_assoc in HP'. split; [|exact HP'].
    rewrite Hrun. reflexivity.
Qed.

Lemma respond_indexed
  (P : list (list Expense.t) -> list ExpenseGroup.t -> Prop)
  sub expensePage this :
  P [] (keptGroups this) ->
  (forall seen first rest groups,
     Forall (fun e => groupingKey (groupByDate sub) e
                      = groupingKey (groupByDate sub) first) rest ->
     P seen groups ->
     P (seen ++ [first :: rest])
       (pushOrMerge (groupByDate sub)
          (ExpenseGroup.mk (Expense.date first) (sortExpenses (first :: rest)))
          groups)) ->
  exists groups',
    respond sub (Emits expensePage) this
    = Returned (set_loading false
                  (set_expenseGroups (Some groups')
                     (set_lastPageReached (Page.last expensePage) this)),
                [Calls (next sub)]) /\
    P (partitions (groupingKey (groupByDate sub)) (Page.content expensePage))
      groups'.
Proof.
  intros HP Hstep. unfold respond.
  destruct (onExpensePage_spec sub expensePage this) as [this' [Hon [Hg Hset]]].
  rewrite Hon.
  destruct (@forEach_indexed P (groupByDate sub)
              (partitions (groupingKey (groupByDate sub))
                 (Page.content expensePage)))
    with (seen := @nil (list Expense.t)) (this := this')
         (groups := keptGroups this)
    as [groups' [Hrun HP']].
  - apply partitions_nonempty.
  - intros seen first rest groups Hin. apply Hstep.
    eapply partition_same_key; exact Hin.
  - exact Hg.
  - exact HP.
  - exists groups'. split; [|exact HP'].
    rewrite Hrun. simpl. rewrite Hset. reflexivity.
Qed.

(** ** What pushing or merging a group keeps *)

Lemma allExpenses_app groups1 groups2 :
  allExpenses (groups1 ++ groups2) = allExpenses groups1 ++ allExpenses groups2.
Proof.
  unfold allExpenses. rewrite map_app, concat_app. reflexivity.
Qed.

Lemma mergeIntoSameDate_perm expenseGroup groups :
  find (sameDate expenseGroup) groups <> None ->
  Permutation (allExpenses (mergeIntoSameDate expenseGroup groups))
    (allExpenses groups ++ ExpenseGroup.expenses expenseGroup).
Proof.
  unfold allExpenses.
  induction groups as [|other rest IH]; simpl; intros Hfind.
  - contradiction.
  - destruct (sameDate expenseGroup other); simpl.
    + eapply perm_trans; [apply Permutation_app_tail, sortExpenses_perm|].
      rewrite <- !app_assoc. apply Permutation_app_head.
      apply Permutation_app_comm.
    + rewrite <- app_assoc. apply Permutation_app_head. apply IH. exact Hfind.
Qed.

Lemma pushOrMerge_perm groupByDate expenseGroup groups :
  Permutation (allExpenses (pushOrMerge groupByDate expenseGroup groups))
    (allExpenses groups ++ ExpenseGroup.expenses expenseGroup).
Proof.
  unfold pushOrMerge.
  destruct (find (sameDate expenseGroup) groups) as [other|] eqn:Hfind;
    destruct groupByDate; simpl;
    try (rewrite allExpenses_app; unfold allExpenses at 2; simpl;
         rewrite app_nil_r; apply Permutation_refl).
  apply mergeIntoSameDate_perm. rewrite Hfind. discriminate.
Qed.

Lemma sortExpenses_not_nil expenses :
  expenses <> [] -> sortExpenses expenses <> [].
Proof.
  intros Hne Hnil. apply Hne. apply Permutation_nil.
  rewrite <- Hnil. apply sortExpenses_perm.
Qed.

Lemma pushOrMerge_nonempty groupByDate expenseGroup groups :
  ExpenseGroup.expenses expenseGroup <> [] ->
  Forall (fun g => ExpenseGroup.expenses g <> []) groups ->
  Forall (fun g => ExpenseGroup.expenses g <> [])
    (pushOrMerge groupByDate expenseGroup groups).
Proof.
  intros Hg Hgroups. unfold pushOrMerge.
  destruct (_ || _).
  - apply Forall_app. split; [exact Hgroups|]. constructor; [exact Hg|constructor].
  - clear Hg. induction groups as [|other rest IH]; simpl.
    + constructor.
    + inversion Hgroups as [|? ? Hother Hrest]; subst.
      destruct (sameDate expenseGroup other).
      * constructor; [|exact Hrest]. simpl. apply sortExpenses_not_nil.
        destruct (ExpenseGroup.expenses other); [contradiction|discriminate].
      * constructor; [exact Hother|apply IH; exact Hrest].
Qed.

Lemma pushOrMerge_ofItsDate groupByDate expenseGroup groups :
  ofItsDate expenseGroup ->
  Forall ofItsDate groups ->
  Forall ofItsDate (pushOrMerge groupByDate expenseGroup groups).
Proof.
  intros Hg Hgroups. unfold pushOrMerge.
  destruct (_ || _).
  - apply Forall_app. split; [exact Hgroups|]. constructor; [exact Hg|constructor].
  - induction groups as [|other rest IH]; simpl.
    + constructor.
    + inversion Hgroups as [|? ? Hother Hrest]; subst.
      destruct (sameDate expenseGroup other) eqn:Hsame.
      * constructor; [|exact Hrest]. unfold ofItsDate in *. simpl.
        eapply Permutation_Forall; [apply Permutation_sym, sortExpenses_perm|].
        apply Forall_app. split; [exact Hother|].
        unfold sameDate in Hsame. apply String.eqb_eq in Hsame.
        eapply Forall_impl; [|exact Hg]. intros e He. congruence.
      * constructor; [exact Hother|apply IH; exact Hrest].
Qed.

Lemma pushOrMerge_dates_grow groupByDate expenseGroup groups :
  exists extra,
    map ExpenseGroup.date (pushOrMerge groupByDate expenseGroup groups)
    = map ExpenseGroup.date groups ++ extra.
Proof.
  unfold pushOrMerge.
  destruct (_ || _).
  - exists [ExpenseGroup.date expenseGroup]. apply map_app.
  - exists []. rewrite app_nil_r. apply mergeIntoSameDate_dates.
Qed.

(** The group made of a partition of a page grouped by date. *)
Lemma candidate_ofItsDate first rest :
  Forall (fun e => groupingKey true e = groupingKey true first) rest ->
  ofItsDate (ExpenseGroup.mk (Expense.date first) (sortExpenses (first :: rest))).
Proof.
  intros Hrest. unfold ofItsDate. cbn [ExpenseGroup.expenses ExpenseGroup.date].
  eapply Permutation_Forall; [apply Permutation_sym, sortExpenses_perm|].
  constructor; [reflexivity|exact Hrest].
Qed.

(** ** Loads keep the records *)

(** X1: a page that arrives adds each of its records to the groups once
    and takes none away: the expenses of the groups after the load are,
    up to their order, the expenses of the groups that were kept (none for
    a first page) and the records of the page. *)
Theorem load_conserves_expenses next expensePage this :
  exists this' effects,
    settle (loadExpenses next) (Emits expensePage) this
    = Returned (this', effects) /\
    Permutation (allExpenses (groupsOf this'))
      (allExpenses (keptGroups this) ++ Page.content expensePage).
Proof.
  pose proof (keptGroups_loadExpenses next this) as Hkept.
  unfold afterCall in Hkept.
  unfold settle. rewrite loadExpenses_call in *. simpl in Hkept.
  set (sub := Build_Subscription _ next).
  set (this1 := set_loading true _) in *.
  destruct (@respond_indexed
              (fun seen groups =>
                 Permutation (allExpenses groups)
                   (allExpenses (keptGroups this1) ++ List.concat seen))
              sub expensePage this1) as [groups' [Hrun Hperm]].
  - simpl. rewrite app_nil_r. apply Permutation_refl.
  - intros seen first rest groups _ Hseen.
    eapply perm_trans; [apply pushOrMerge_perm|].
    cbn [ExpenseGroup.expenses].
    rewrite concat_app. simpl. rewrite app_nil_r, app_assoc.
    apply Permutation_app; [exact Hseen|apply (sortExpenses_perm (first :: rest))].
  - rewrite Hrun. simpl. eexists; eexists. split; [reflexivity|].
    unfold groupsOf. simpl. rewrite <- Hkept.
    eapply perm_trans; [exact Hperm|].
    apply Permutation_app_head, partitions_perm.
Qed.

(** ** Invariants of the groups, with what a partition is known to be *)

Lemma respond_invariant_keyed (P : list ExpenseGroup.t -> Prop)
  sub response this :
  P [] ->
  P (groupsOf this) ->
  (forall first rest groups,
     Forall (fun e => groupingKey (groupByDate sub) e
                      = groupingKey (groupByDate sub) first) rest ->
     P groups ->
     P (pushOrMerge (groupByDate sub)
          (ExpenseGroup.mk (Expense.date first) (sortExpenses (first :: rest)))
          groups)) ->
  exists this' effects,
    respond sub response this = Returned (this', effects) /\
    P (groupsOf this') /\
    searchCriteria this' = searchCriteria this.
Proof.
  intros Hnil Hthis Hstep.
  destruct response as [expensePage|error].
  - destruct (@respond_indexed (fun _ groups => P groups) sub expensePage this)
      as [groups' [Hrun HP]].
    + unfold keptGroups.
      destruct (Criteria.page (searchCriteria this) =? 0)%nat; assumption.
    + intros _ first rest groups. apply Hstep.
    + rewrite Hrun. eexists; eexists. split; [reflexivity|].
      split; [exact HP|reflexivity].
  - simpl. eexists; eexists. split; [reflexivity|].
    split; [exact Hthis|reflexivity].
Qed.

Lemma settle_invariant_keyed (P : list ExpenseGroup.t -> Prop) m response this :
  P [] ->
  P (groupsOf this) ->
  (forall groupByDate first rest groups,
     groupByDate
     = String.prefix "date"
         (Criteria.sort (searchCriteria (afterCall (invoke m) this))) ->
     Forall (fun e => groupingKey groupByDate e = groupingKey groupByDate first)
       rest ->
     P groups ->
     P (pushOrMerge groupByDate
          (ExpenseGroup.mk (Expense.date first) (sortExpenses (first :: rest)))
          groups)) ->
  exists this' effects,
    settle (invoke m) response this = Returned (this', effects) /\
    P (groupsOf this') /\
    searchCriteria this' = searchCriteria (afterCall (invoke m) this).
Proof.
  intros Hnil Hthis Hstep.
  destruct (invoke_spec m this) as [Hgroups [Hsub _]].
  unfold settle, afterCall, subscriptionOf in *.
  destruct (invoke m this) as [[this1 sub] requested]; simpl in *.
  destruct (@respond_invariant_keyed P sub response this1)
    as [this' [fx [Hrun [HP Hc]]]].
  - exact Hnil.
  - unfold groupsOf in *. destruct Hgroups as [Heq|Heq]; rewrite Heq;
      assumption.
  - intros first rest groups. apply Hstep. exact Hsub.
  - rewrite Hrun. simpl. eexists; eexists. split; [reflexivity|].
    split; assumption.
Qed.

(** Loads under sorts by date keep an invariant that grouping by date
    keeps. *)
Lemma run_by_date (P : list ExpenseGroup.t -> Prop) :
  P [] ->
  (forall first rest groups,
     Forall (fun e => Expense.date e = Expense.date first) rest ->
     P groups ->
     P (pushOrMerge true
          (ExpenseGroup.mk (Expense.date first) (sortExpenses (first :: rest)))
          groups)) ->
  forall steps this,
  sortsByDate this ->
  P (groupsOf this) ->
  Forall (fun step : Step => keepsDateSort (fst step)) steps ->
  exists final,
    run steps this = Returned final /\ P (groupsOf final) /\ sortsByDate final.
Proof.
  intros Hnil Hstep.
  induction steps as [|[m response] steps IH]; intros this Hsort HP Hkeep.
  - exists this. repeat split; assumption.
  - inversion Hkeep as [|? ? Hm Hrest]; subst. simpl in Hm.
    assert (Hafter : String.prefix "date"
              (Criteria.sort (searchCriteria (afterCall (invoke m) this)))
            = true).
    { destruct (invoke_spec m this) as [_ [_ Hs]]. rewrite Hs.
      destruct m; try exact Hsort. exact Hm. }
    destruct (@settle_invariant_keyed P m response this)
      as [this' [fx [Hrun [HP' Hc]]]].
    + exact Hnil.
    + exact HP.
    + intros groupByDate first rest groups Hgbd. rewrite Hgbd, Hafter.
      apply Hstep.
    + simpl. rewrite Hrun. simpl. apply IH.
      * unfold sortsByDate. rewrite Hc. exact Hafter.
      * exact HP'.
      * exact Hrest.
Qed.

(** X2: after any sequence of loads of a new component no group is
    empty. *)
Theorem groups_never_empty today steps :
  exists final,
    run steps (initial today) = Returned final /\
    Forall (fun g => ExpenseGroup.expenses g <> []) (groupsOf final).
Proof.
  assert (Hgen : forall steps this,
             Forall (fun g => ExpenseGroup.expenses g <> []) (groupsOf this) ->
             exists final,
               run steps this = Returned final /\
               Forall (fun g => ExpenseGroup.expenses g <> []) (groupsOf final)).
  { clear steps. induction steps as [|[m response] steps IH]; intros this Hs.
    - exists this. split; [reflexivity|exact Hs].
    - destruct (@settle_invariant
                  (Forall (fun g => ExpenseGroup.expenses g <> []))
                  m response this) as [this' [fx [Hrun [HP _]]]].
      + constructor.
      + exact Hs.
      + intros first rest groups. apply pushOrMerge_nonempty.
        apply sortExpenses_not_nil. discriminate.
      + simpl. rewrite Hrun. simpl. apply IH. exact HP. }
  apply Hgen. constructor.
Qed.

(** X3: the component has a sort that starts with "date" and every
    expense of its groups has the date of its group (so when it has no
    groups); after loads that are all made under such a sort, every
    expense of every group has the date of its group. *)
Theorem groups_hold_their_date steps this :
  sortsByDate this ->
  Forall ofItsDate (groupsOf this) ->
  Forall (fun step : Step => keepsDateSort (fst step)) steps ->
  exists final,
    run steps this = Returned final /\ Forall ofItsDate (groupsOf final).
Proof.
  intros Hsort Hdates Hkeep.
  destruct (@run_by_date (Forall ofItsDate)) with (steps := steps) (this := this)
    as [final [Hrun [HP _]]]; try assumption.
  - constructor.
  - intros first rest groups Hrest. apply pushOrMerge_ofItsDate.
    apply candidate_ofItsDate. exact Hrest.
  - exists final. split; assumption.
Qed.

(** ** Pagination *)

(** X4: a further page that arrives removes no group and moves none: the
    dates of the groups before the load are the first dates of the groups
    after it, in the same order, and every expense that was in a group
    still is in one. *)
Theorem next_page_keeps_groups ev expensePage this :
  exists this' effects extra,
    settle (loadNextExpensePage ev) (Emits expensePage) this
    = Returned (this', effects) /\
    map ExpenseGroup.date (groupsOf this')
    = map ExpenseGroup.date (groupsOf this) ++ extra /\
    incl (allExpenses (groupsOf this)) (allExpenses (groupsOf this')).
Proof.
  unfold settle, loadNextExpensePage. rewrite loadExpenses_call.
  set (sub := Build_Subscription _ _).
  set (this1 := set_loading true _).
  assert (Hkept : keptGroups this1 = groupsOf this).
  { unfold keptGroups, this1. simpl.
    match goal with
    | |- context [normalise ?ym ?c] =>
        destruct (normalise_fields ym c) as [Hp _]; rewrite Hp
    end.
    reflexivity. }
  destruct (@respond_indexed
              (fun seen groups =>
                 (exists extra,
                    map ExpenseGroup.date groups
                    = map ExpenseGroup.date (groupsOf this) ++ extra) /\
                 Permutation (allExpenses groups)
                   (allExpenses (groupsOf this) ++ List.concat seen))
              sub expensePage this1) as [groups' [Hrun [[extra Hdates] Hperm]]].
  - rewrite Hkept. split.
    + exists []. symmetry; apply app_nil_r.
    + simpl. rewrite app_nil_r. apply Permutation_refl.
  - intros seen first rest groups _ [[extra Hextra] Hseen]. split.
    + destruct (pushOrMerge_dates_grow (groupByDate sub)
                  (ExpenseGroup.mk (Expense.date first)
                     (sortExpenses (first :: rest))) groups) as [more Hmore].
      exists (extra ++ more). rewrite Hmore, Hextra. symmetry; apply app_assoc.
    + eapply perm_trans; [apply pushOrMerge_perm|].
      cbn [ExpenseGroup.expenses].
      rewrite concat_app. simpl. rewrite app_nil_r, app_assoc.
      apply Permutation_app;
        [exact Hseen|apply (sortExpenses_perm (first :: rest))].
  - rewrite Hrun. simpl. eexists; eexists; exists extra.
    split; [reflexivity|]. unfold groupsOf at 1 3. simpl.
    split; [exact Hdates|].
    intros e He. eapply Permutation_in; [apply Permutation_sym, Hperm|].
    apply in_or_app. left; exact He.
Qed.

(** X5: a load whose request fails leaves the page index where the call
    put it.  After a failed [loadNextExpensePage] the groups are as before
    and the page index is one more, so the next [loadNextExpensePage]
    requests the page after the one that failed. *)
Theorem failed_next_page_is_skipped ev ev' error this :
  exists this' effects,
    settle (loadNextExpensePage ev) (Fails error) this
    = Returned (this', effects) /\
    expenseGroups this' = expenseGroups this /\
    Criteria.page (searchCriteria this')
    = S (Criteria.page (searchCriteria this)) /\
    exists criteria,
      effectsOf (loadNextExpensePage ev') this' = [GetExpenses criteria] /\
      Criteria.page criteria = S (S (Criteria.page (searchCriteria this))).
Proof.
  set (advanced :=
         set_searchCriteria
           (Criteria.with_page (S (Criteria.page (searchCriteria this)))
              (searchCriteria this)) this).
  set (criteria1 := normalise (formatPeriod (date this)) (searchCriteria advanced)).
  set (this' := set_loading false
                  (set_loading true (set_searchCriteria criteria1 advanced))).
  assert (Hp : Criteria.page criteria1 = S (Criteria.page (searchCriteria this)))
    by apply normalise_fields.
  exists this', [GetExpenses criteria1;
                 DisplayErrorToast "Could not load expenses" error].
  split.
  { unfold settle, loadNextExpensePage. rewrite loadExpenses_call. reflexivity. }
  split; [reflexivity|]. split; [exact Hp|].
  unfold effectsOf, loadNextExpensePage. rewrite loadExpenses_call.
  eexists. split; [reflexivity|].
  match goal with
  | |- Criteria.page (normalise ?ym ?c) = _ =>
      destruct (normalise_fields ym c) as [Hp' _]; rewrite Hp'
  end.
  simpl. rewrite Hp. reflexivity.
Qed.

(** X6: what [reloadExpenses] leaves when its page arrives does not
    depend on the groups, on the flag of the last page and on the flag
    [loading] that the component had. *)
Theorem reload_discards_loaded_groups ev expensePage this groups last loading :
  settle (reloadExpenses ev) (Emits expensePage)
    (set_loading loading
       (set_lastPageReached last (set_expenseGroups groups this)))
  = settle (reloadExpenses ev) (Emits expensePage) this.
Proof.
  unfold settle, reloadExpenses. rewrite !loadExpenses_call.
  cbn [date searchCriteria set_loading set_lastPageReached set_expenseGroups
       set_searchCriteria].
  unfold respond.
  rewrite !onExpensePage_first; [reflexivity| |];
    simpl; apply normalise_fields.
Qed.

(** X7: every request for expenses, whatever method makes it, carries the
    search criteria of the component as the call leaves them, with the
    period of the current date and without an empty name or an empty list
    of category ids. *)
Theorem requests_have_no_empty_filter m this :
  let this' := afterCall (invoke m) this in
  effectsOf (invoke m) this = [GetExpenses (searchCriteria this')] /\
  noEmptyFilter (searchCriteria this') /\
  Criteria.yearMonth (searchCriteria this') = Some (formatPeriod (date this')).
Proof.
  assert (Hnorm : forall ym c,
             noEmptyFilter (normalise ym c) /\
             Criteria.yearMonth (normalise ym c) = Some ym).
  { intros ym c. unfold noEmptyFilter.
    destruct c as [p sz so [[|? ?]|] [[|? ?]|] y]; repeat split;
      simpl; discriminate. }
  unfold afterCall, effectsOf.
  destruct m as [|ev|ev|number|value];
    unfold invoke, addMonths, reloadExpenses, loadNextExpensePage,
      onSearchFormValueChanges;
    rewrite loadExpenses_call; cbn [fst snd];
    cbn [date searchCriteria set_loading set_searchCriteria
         set_expenseGroups set_date];
    (split; [reflexivity|apply Hnorm]).
Qed.

(** ** The first page under a sort by date *)

Lemma in_allExpenses e groups :
  In e (allExpenses groups) <->
  exists g, In g groups /\ In e (ExpenseGroup.expenses g).
Proof.
  unfold allExpenses. rewrite in_concat. split.
  - intros [l [Hl He]]. apply in_map_iff in Hl. destruct Hl as [g [Hg Hin]].
    subst l. exists g. split; assumption.
  - intros [g [Hg He]]. exists (ExpenseGroup.expenses g).
    split; [apply in_map; exact Hg|exact He].
Qed.

(** X8: under a sort that starts with "date", after [reloadExpenses] and
    the arrival of its page the component has one group for each date
    that a record of the page has, and no other group. *)
Theorem first_page_one_group_per_date ev expensePage this :
  sortsByDate this ->
  exists this' effects,
    settle (reloadExpenses ev) (Emits expensePage) this
    = Returned (this', effects) /\
    NoDup (map ExpenseGroup.date (groupsOf this')) /\
    forall d,
      In d (map ExpenseGroup.date (groupsOf this')) <->
      In d (map Expense.date (Page.content expensePage)).
Proof.
  intros Hsort. unfold sortsByDate in Hsort.
  unfold settle, reloadExpenses. rewrite loadExpenses_call.
  cbn [searchCriteria set_searchCriteria Criteria.sort Criteria.with_page].
  rewrite Hsort.
  set (sub := Build_Subscription true _).
  set (this1 := set_loading true _).
  assert (Hkept : keptGroups this1 = []).
  { unfold keptGroups, this1. simpl.
    match goal with
    | |- context [normalise ?ym ?c] =>
        destruct (normalise_fields ym c) as [Hp _]; rewrite Hp
    end.
    reflexivity. }
  destruct (@respond_indexed
              (fun seen groups =>
                 NoDup (map ExpenseGroup.date groups) /\
                 Forall (fun g => ExpenseGroup.expenses g <> []) groups /\
                 Forall ofItsDate groups /\
                 Permutation (allExpenses groups) (List.concat seen))
              sub expensePage this1)
    as [groups' [Hrun [Hnd [Hne [Hdates Hperm]]]]].
  - rewrite Hkept. repeat split; constructor.
  - intros seen first rest groups Hkey [Hnd [Hne [Hdates Hperm]]].
    cbn [groupByDate sub] in *. repeat split.
    + apply pushOrMerge_dates_unique; exact Hnd.
    + apply pushOrMerge_nonempty; [|exact Hne].
      apply sortExpenses_not_nil. discriminate.
    + apply pushOrMerge_ofItsDate; [|exact Hdates].
      apply candidate_ofItsDate. exact Hkey.
    + eapply perm_trans; [apply pushOrMerge_perm|].
      cbn [ExpenseGroup.expenses].
      rewrite concat_app. simpl. rewrite app_nil_r.
      apply Permutation_app;
        [exact Hperm|apply (sortExpenses_perm (first :: rest))].
  - rewrite Hrun. simpl. eexists; eexists. split; [reflexivity|].
    unfold groupsOf. simpl. split; [exact Hnd|].
    assert (Hall : Permutation (allExpenses groups') (Page.content expensePage)).
    { eapply perm_trans; [exact Hperm|]. apply partitions_perm. }
    intros d. split; intros Hin.
    + apply in_map_iff in Hin. destruct Hin as [g [Hd Hg]].
      rewrite Forall_forall in Hne, Hdates.
      pose proof (Hne g Hg) as Hmember. pose proof (Hdates g Hg) as Hits.
      destruct (ExpenseGroup.expenses g) as [|e es] eqn:He; [contradiction|].
      unfold ofItsDate in Hits. rewrite He in Hits.
      inversion Hits as [|? ? Hdate _]; subst.
      apply in_map_iff. exists e. split; [exact Hdate|].
      eapply Permutation_in; [exact Hall|].
      apply in_allExpenses. exists g. split; [exact Hg|].
      rewrite He. left; reflexivity.
    + apply in_map_iff in Hin. destruct Hin as [e [Hd He]].
      apply (Permutation_in _ (Permutation_sym Hall)) in He.
      apply in_allExpenses in He. destruct He as [g [Hg He]].
      rewrite Forall_forall in Hdates. pose proof (Hdates g Hg) as Hits.
      unfold ofItsDate in Hits. rewrite Forall_forall in Hits.
      apply in_map_iff. exists g. split; [|exact Hg].
      rewrite <- (Hits e He). exact Hd.
Qed.

(** ** The two requests of [ionViewDidEnter] *)

Lemma forEach_frame (f : Component -> Component) groupByDate parts :
  (forall this, expenseGroups (f this) = expenseGroups this) ->
  (forall groups this,
     f (set_expenseGroups groups this) = set_expenseGroups groups (f this)) ->
  forall this,
  forEach (subscriberNext groupByDate) parts (f this)
  = (this' <- forEach (subscriberNext groupByDate) parts this ;;
     Returned (f this')).
Proof.
  intros Hkeeps Hcommutes.
  induction parts as [|expenses parts IH]; intros this; simpl.
  - reflexivity.
  - destruct expenses as [|first rest]; simpl; [reflexivity|].
    rewrite Hkeeps.
    destruct (expenseGroups this) as [groups|]; simpl; [|reflexivity].
    rewrite <- Hcommutes. apply IH.
Qed.

(** The response to a request for expenses does not look at the
    categories, at the flag of the last page and at the flag [loading]. *)
Lemma respond_frame sub expensePage this cats last loading :
  respond sub (Emits expensePage)
    (set_categories cats
       (set_lastPageReached last (set_loading loading this)))
  = (r <- respond sub (Emits expensePage) this ;;
     Returned (set_categories cats (fst r), snd r)).
Proof.
  unfold respond, onExpensePage.
  cbn [searchCriteria expenseGroups set_categories set_lastPageReached
       set_loading].
  set (f := fun this => set_categories cats (set_loading loading this)).
  destruct (_ || _).
  - change (set_expenseGroups (Some [])
              (set_lastPageReached (Page.last expensePage)
                 (set_categories cats
                    (set_lastPageReached last (set_loading loading this)))))
      with (f (set_expenseGroups (Some [])
                 (set_lastPageReached (Page.last expensePage) this))).
    rewrite (@forEach_frame f); [|reflexivity|reflexivity].
    destruct (forEach _ _ _); reflexivity.
  - change (set_lastPageReached (Page.last expensePage)
              (set_categories cats
                 (set_lastPageReached last (set_loading loading this))))
      with (f (set_lastPageReached (Page.last expensePage) this)).
    rewrite (@forEach_frame f); [|reflexivity|reflexivity].
    destruct (forEach _ _ _); reflexivity.
Qed.

(** X9: [ionViewDidEnter] has two requests in flight, and both responses
    write the flag of the last page.  When both bring a page, the
    component is the same in the two orders of arrival but for that flag,
    which is the flag of the page that arrived last: the one of the page
    of categories when the expenses arrived first. *)
Theorem view_enter_last_page_flag_races expensePage categoryPage this :
  exists expensesFirst categoriesFirst,
    expensesThenCategories (Emits expensePage) (Emits categoryPage) this
    = Returned expensesFirst /\
    categoriesThenExpenses (Emits expensePage) (Emits categoryPage) this
    = Returned categoriesFirst /\
    lastPageReached expensesFirst = Page.last categoryPage /\
    lastPageReached categoriesFirst = Page.last expensePage /\
    categoriesFirst
    = set_lastPageReached (Page.last expensePage) expensesFirst.
Proof.
  unfold expensesThenCategories, categoriesThenExpenses, ionViewDidEnter.
  rewrite loadExpenses_call. unfold loadCategories.
  set (sub := Build_Subscription _ doNothing).
  set (entered := set_loading true (set_searchCriteria _ (set_loading true _))).
  destruct (@respond_indexed (fun _ _ => True) sub expensePage entered)
    as [groups' [Hrun _]]; [exact I|intros; exact I|].
  assert (Hframe :
    respond sub (Emits expensePage)
      (fst (respondCategories doNothing (Emits categoryPage) entered))
    = (r <- respond sub (Emits expensePage) entered ;;
       Returned
         (set_categories
            (categories
               (fst (respondCategories doNothing (Emits categoryPage) entered)))
            (fst r), snd r))).
  { rewrite <- (@respond_frame sub expensePage entered _
                  (Page.last categoryPage) false).
    f_equal. unfold respondCategories. simpl.
    destruct (Criteria.page _ =? 0)%nat; reflexivity. }
  rewrite Hframe, Hrun. simpl.
  eexists; eexists. split; [reflexivity|]. split; [reflexivity|].
  split; [reflexivity|]. split; [reflexivity|].
  unfold respondCategories. simpl.
  destruct (Criteria.page _ =? 0)%nat; reflexivity.
Qed.

(** ** A change of period *)

(** X15: [addMonths] discards the groups when it is called, before its
    request is answered: they are [null] while the request is in flight,
    and when the request fails they stay [null], with the new date and
    with [loading] cleared. *)
Theorem add_months_discards_groups number error this :
  expenseGroups (afterCall (addMonths number) this) = None /\
  exists this' effects,
    settle (addMonths number) (Fails error) this = Returned (this', effects) /\
    expenseGroups this' = None /\
    loading this' = false /\
    date this' = dateFnsAddMonths (date this) number.
Proof.
  unfold afterCall, settle, addMonths, reloadExpenses.
  rewrite loadExpenses_call. simpl.
  split; [reflexivity|].
  eexists; eexists. split; [reflexivity|]. repeat split.
Qed.

End ExpenseList.

(** * The expense modal and the list that opens it *)

Section ModalFacts.
Variable DateT : Type.
Variable formatPeriod : DateT -> string.
Variable Category : Type.
Variable HttpError : Type.
Variable isoDate : option string -> option string.

Local Abbreviation session := (@ExpenseModal.session Category HttpError isoDate).
Local Abbreviation interact := (@ExpenseModal.interact Category HttpError isoDate).
Local Abbreviation closedBySave :=
  (@ExpenseModal.closedBySave Category HttpError isoDate).
Local Abbreviation Modal := (ExpenseModal.Modal Category).
Local Abbreviation formDate modal :=
  (ExpenseModal.date (ExpenseModal.expenseForm (Category := Category) modal)).

Lemma interact_dismissal i (modal : Modal) :
  ExpenseModal.dismissal (snd (interact i modal))
  = match i with
    | ExpenseModal.Edit _ _ => None
    | ExpenseModal.Cancel _ => Some "cancel"
    | ExpenseModal.Save failure =>
        match isoDate (formDate modal), failure with
        | Some _, None => Some "refresh"
        | _, _ => None
        end
    | ExpenseModal.Delete _ action =>
        if (action =? "delete")%string then Some "delete" else None
    end.
Proof.
  destruct i as [value| |failure|action]; simpl; try reflexivity.
  - unfold ExpenseModal.save. simpl.
    destruct (isoDate _); [destruct failure|]; reflexivity.
  - unfold ExpenseModal.delete. destruct (action =? "delete")%string; reflexivity.
Qed.

Lemma session_cons i interactions (modal : Modal) :
  session (i :: interactions) modal
  = match ExpenseModal.dismissal (snd (interact i modal)) with
    | Some role => (fst (interact i modal), Some role)
    | None => session interactions (fst (interact i modal))
    end.
Proof.
  simpl. destruct (ExpenseModal.interact isoDate i modal). reflexivity.
Qed.

Lemma closedBySave_cons i interactions (modal : Modal) :
  closedBySave (i :: interactions) modal <->
  (i = ExpenseModal.Save None /\ isoDate (formDate modal) <> None) \/
  (ExpenseModal.dismissal (snd (interact i modal)) = None /\
   closedBySave interactions (fst (interact i modal))).
Proof.
  unfold ExpenseModal.closedBySave. split.
  - intros [[|b before] [after [opened [Heq [Hopen Hdate]]]]].
    + left. simpl in Heq, Hopen. injection Heq as Hi _.
      injection Hopen as Hopened. subst. split; [reflexivity|exact Hdate].
    + right. injection Heq as Hb Heq. subst b.
      rewrite session_cons in Hopen.
      destruct (ExpenseModal.dismissal (snd (interact i modal))) as [role|];
        [discriminate|].
      split; [reflexivity|]. exists before, after, opened.
      repeat split; assumption.
  - intros [[Hi Hdate]|[Hnone [before [after [opened [Heq [Hopen Hdate]]]]]]].
    + exists [], interactions, modal. subst i. repeat split. exact Hdate.
    + exists (i :: before), after, opened. subst interactions.
      rewrite session_cons, Hnone. repeat split; assumption.
Qed.

(** X10: a presented modal is dismissed with the role "refresh" when,
    and only when, a save succeeded while the modal was still open: the
    date of the form parsed and the upsert was answered without an error.
    A cancel gives "cancel" and a confirmed deletion gives "delete"; a
    save that throws on the date or whose upsert fails, a deletion that is
    not confirmed and an edit of the form leave the modal open. *)
Theorem session_refresh_iff_saved interactions (modal : Modal) :
  (snd (session interactions modal) = Some "refresh" <->
   closedBySave interactions modal) /\
  (forall role, snd (session interactions modal) = Some role ->
     role = "cancel" \/ role = "refresh" \/ role = "delete").
Proof.
  revert modal.
  induction interactions as [|i interactions IH]; intros modal.
  - split; [split|].
    + simpl. discriminate.
    + intros [before [after [opened [Heq _]]]]. destruct before; discriminate.
    + simpl. discriminate.
  - rewrite session_cons, closedBySave_cons.
    destruct (IH (fst (interact i modal))) as [IHiff IHroles].
    pose proof (interact_dismissal i modal) as Hrole.
    destruct (ExpenseModal.dismissal (snd (interact i modal))) as [role|].
    + cbn [snd]. split; [split|].
      * intros Hrefresh. injection Hrefresh as Hrefresh. subst role. left.
        destruct i as [value| |failure|action]; try discriminate.
        -- destruct (isoDate (formDate modal)) eqn:Hdate;
             [destruct failure|]; try discriminate.
           split; [reflexivity|discriminate].
        -- destruct (action =? "delete")%string; discriminate.
      * intros [[Hi Hdate]|[Hnone _]]; [|discriminate]. subst i.
        destruct (isoDate (formDate modal)); [|contradiction].
        exact Hrole.
      * intros r Hr. injection Hr as Hr. subst r.
        destruct i as [value| |failure|action].
        -- discriminate.
        -- left. congruence.
        -- destruct (isoDate (formDate modal)); [destruct failure|];
             try discriminate.
           right; left. congruence.
        -- destruct (action =? "delete")%string; [|discriminate].
           right; right. congruence.
    + split; [split|].
      * intros Hrefresh. right. split; [reflexivity|].
        apply IHiff. exact Hrefresh.
      * intros [[Hi Hdate]|[_ Hclosed]]; [|apply IHiff; exact Hclosed].
        subst i. destruct (isoDate (formDate modal)); [discriminate|].
        contradiction.
      * exact IHroles.
Qed.

(** X11: when the modal that [openModal] presented is dismissed, the
    list requests expenses if the modal was closed by a save that
    succeeded, and does nothing otherwise (a cancel, a deletion, a modal
    still open).  The request is for the page index that the component
    has, not for the first page, and the groups are kept until the page
    arrives. *)
Theorem list_reloads_only_after_save interactions (modal : Modal)
  (this : Component DateT Category) :
  let role := snd (session interactions modal) in
  let result :=
    @openModalDismissed DateT formatPeriod Category HttpError role this in
  (closedBySave interactions modal /\
   snd result = [GetExpenses HttpError (searchCriteria (fst (fst result)))] /\
   Criteria.page (searchCriteria (fst (fst result)))
   = Criteria.page (searchCriteria this) /\
   expenseGroups (fst (fst result)) = expenseGroups this)
  \/
  (~ closedBySave interactions modal /\ result = (this, None, [])).
Proof.
  destruct (session_refresh_iff_saved interactions modal) as [Hiff _].
  cbv zeta. destruct (snd (session interactions modal)) as [role|].
  - unfold openModalDismissed.
    destruct (String.eqb_spec role "refresh") as [Heq|Hneq].
    + left. subst role. split; [apply Hiff; reflexivity|].
      rewrite loadExpenses_call. simpl. split; [reflexivity|].
      split; [apply normalise_fields|reflexivity].
    + right. split; [|reflexivity].
      intros Hsaved. apply Hiff in Hsaved. congruence.
  - right. split; [|reflexivity].
    intros Hsaved. apply Hiff in Hsaved. discriminate.
Qed.

(** X12: [submitting] is set by [save] and reset by nothing.  A save
    that throws on the date of the form, before any request, or whose
    upsert fails leaves the modal open, with [submitting] set, for the
    interactions that follow; and once [submitting] is set it is set at
    the end of every session. *)
Theorem submitting_is_never_reset interactions (modal : Modal) :
  (forall failure,
     isoDate (formDate modal) = None \/ failure <> None ->
     session (ExpenseModal.Save failure :: interactions) modal
     = session interactions
         (ExpenseModal.mkModal (ExpenseModal.categories modal)
            (ExpenseModal.expenseForm modal) true)) /\
  (ExpenseModal.submitting modal = true ->
   ExpenseModal.submitting (fst (session interactions modal)) = true).
Proof.
  split.
  - intros failure Hopen. rewrite session_cons, interact_dismissal.
    simpl. unfold ExpenseModal.save. simpl.
    destruct (isoDate (formDate modal)) as [day|]; [|reflexivity].
    destruct failure as [error|]; [reflexivity|].
    destruct Hopen as [Hdate|Hfailure]; [discriminate|contradiction].
  - revert modal.
    induction interactions as [|i interactions IH]; intros modal Hset.
    + exact Hset.
    + rewrite session_cons.
      assert (Hkept : ExpenseModal.submitting (fst (interact i modal)) = true).
      { destruct i as [value| |failure|action]; simpl.
        - exact Hset.
        - exact Hset.
        - unfold ExpenseModal.save. simpl.
          destruct (isoDate _); [destruct failure|]; reflexivity.
        - unfold ExpenseModal.delete.
          destruct (action =? "delete")%string; exact Hset. }
      destruct (ExpenseModal.dismissal (snd (interact i modal)));
        [exact Hkept|apply IH; exact Hkept].
Qed.

End ModalFacts.

(** * The category list *)

Section CategoryListFacts.
Variable Category : Type.
Variable HttpError : Type.

Local Abbreviation CList := (CategoryList.Component Category).
Local Abbreviation crun := (@CategoryList.run Category HttpError).
Local Abbreviation csettle := (@CategoryList.settle Category HttpError).

Lemma last_cons {A : Type} (a : A) l d : List.last (a :: l) d = List.last l a.
Proof.
  revert a d. induction l as [|b l IH]; intros a d; [reflexivity|].
  change (List.last (a :: b :: l) d) with (List.last (b :: l) d).
  rewrite (IH b d), (IH b a). reflexivity.
Qed.

Lemma category_next_pages more :
  forall (this : CList) loaded,
  CategoryList.categories this = Some loaded ->
  let final := fst (crun (map (fun p => (CategoryList.LoadNextCategoryPage (fst p),
                                         Emits (snd p))) more) this) in
  CategoryList.categories final
  = Some (loaded ++ List.concat (map (fun p => Page.content (snd p)) more)) /\
  CategoryCriteria.page (CategoryList.searchCriteria final)
  = CategoryCriteria.page (CategoryList.searchCriteria this) + List.length more /\
  CategoryList.lastPageReached final
  = List.last (map (fun p => Page.last (snd p)) more)
      (CategoryList.lastPageReached this).
Proof.
  induction more as [|[ev page] more IH]; intros this loaded Hloaded.
  - simpl. rewrite app_nil_r, Nat.add_0_r. repeat split. exact Hloaded.
  - cbn [map crun fst snd].
    destruct (csettle (CategoryList.LoadNextCategoryPage ev) (Emits page) this)
      as [this1 effects] eqn:Hsettle.
    assert (Hthis1 :
      CategoryList.categories this1 = Some (loaded ++ Page.content page) /\
      CategoryCriteria.page (CategoryList.searchCriteria this1)
      = S (CategoryCriteria.page (CategoryList.searchCriteria this)) /\
      CategoryList.lastPageReached this1 = Page.last page).
    { unfold CategoryList.settle, CategoryList.invoke,
        CategoryList.loadNextCategoryPage, CategoryList.loadCategories,
        CategoryList.respond, CategoryList.with_page,
        CategoryList.deleteEmptyName in Hsettle.
      cbn [CategoryList.categories CategoryList.searchCriteria
           CategoryList.lastPageReached CategoryList.loading
           CategoryCriteria.with_page CategoryCriteria.name
           CategoryCriteria.page CategoryCriteria.size CategoryCriteria.sort]
        in Hsettle.
      rewrite Hloaded in Hsettle.
      destruct (CategoryCriteria.name (CategoryList.searchCriteria this))
        as [[|? ?]|];
        cbn in Hsettle; injection Hsettle as H1 _; subst this1;
        repeat split. }
    destruct Hthis1 as [Hcats [Hpage Hlast]].
    specialize (IH this1 _ Hcats). cbv zeta in IH.
    destruct (crun _ this1) as [final later]. cbn [fst] in *.
    destruct IH as [IHcats [IHpage IHlast]].
    cbn [map List.concat List.length]. repeat split.
    + rewrite IHcats, <- app_assoc. reflexivity.
    + rewrite IHpage, Hpage. lia.
    + rewrite IHlast, Hlast. cbn [snd]. symmetry. apply last_cons.
Qed.

(** X13: after [reloadCategories] and any number of
    [loadNextCategoryPage], whose pages all arrive, the categories are the
    contents of these pages one after the other, whatever was loaded
    before; the page index is the number of further pages and the flag of
    the last page is the one of the page that arrived last. *)
Theorem category_pages_concatenate ev first more (this : CList) :
  let final :=
    fst (crun (@CategoryList.pagesLoaded Category HttpError ev first more) this) in
  CategoryList.categories final
  = Some (Page.content first
            ++ List.concat (map (fun p => Page.content (snd p)) more)) /\
  CategoryCriteria.page (CategoryList.searchCriteria final) = List.length more /\
  CategoryList.lastPageReached final
  = List.last (map (fun p => Page.last (snd p)) more) (Page.last first).
Proof.
  unfold CategoryList.pagesLoaded. cbn [crun].
  destruct (csettle (CategoryList.ReloadCategories ev) (Emits first) this)
    as [this1 effects] eqn:Hsettle.
  assert (Hthis1 :
    CategoryList.categories this1 = Some (Page.content first) /\
    CategoryCriteria.page (CategoryList.searchCriteria this1) = 0 /\
    CategoryList.lastPageReached this1 = Page.last first).
  { unfold CategoryList.settle, CategoryList.invoke,
      CategoryList.reloadCategories, CategoryList.loadCategories,
      CategoryList.respond, CategoryList.with_page,
      CategoryList.deleteEmptyName in Hsettle.
    cbn [CategoryList.categories CategoryList.searchCriteria
         CategoryList.lastPageReached CategoryList.loading
         CategoryCriteria.with_page CategoryCriteria.name
         CategoryCriteria.page CategoryCriteria.size CategoryCriteria.sort]
      in Hsettle.
    destruct (CategoryCriteria.name (CategoryList.searchCriteria this))
      as [[|? ?]|];
      destruct (CategoryList.categories this);
      cbn in Hsettle; injection Hsettle as H1 _; subst this1;
      repeat split. }
  destruct Hthis1 as [Hcats [Hpage Hlast]].
  pose proof (category_next_pages more this1 Hcats) as Hmore.
  cbv zeta in *.
  destruct (crun _ this1) as [final later]. cbn [fst] in *.
  destruct Hmore as [Hc [Hp Hl]]. rewrite Hpage in Hp. rewrite Hlast in Hl.
  repeat split; assumption.
Qed.

(** X14: whatever the responses, the loads of the category list call
    their callbacks once each, in the order of the loads: a load that
    fails completes its refresher or its infinite scroll too. *)
Theorem category_loads_call_next_once steps (this : CList) :
  filter (@CategoryList.isCall HttpError) (snd (crun steps this))
  = map (fun step => CategoryList.Calls HttpError
                       (CategoryList.callbackOf (fst step))) steps.
Proof.
  revert this.
  induction steps as [|[m response] steps IH]; intros this.
  - reflexivity.
  - cbn [crun].
    destruct (csettle m response this) as [this1 effects] eqn:Hsettle.
    specialize (IH this1).
    destruct (crun steps this1) as [final later]. cbn [snd] in *.
    rewrite filter_app, IH. cbn [map fst].
    assert (Heffects : filter (@CategoryList.isCall HttpError) effects
                       = [CategoryList.Calls HttpError
                            (CategoryList.callbackOf m)]).
    { unfold CategoryList.settle in Hsettle.
      destruct m, response; cbn in Hsettle;
        injection Hsettle as _ H2; subst effects; reflexivity. }
    rewrite Heffects. reflexivity.
Qed.

End CategoryListFacts.

(** * The properties on concrete records *)

Section Concrete.
Import Sample.

Local Abbreviation load := (@loadExpenses Month formatPeriod string string).
Local Abbreviation reload := (@reloadExpenses Month formatPeriod string string).
Local Abbreviation runSteps :=
  (@run Month addMonths formatPeriod string string codeUnitCompare).
Local Abbreviation new := (@initial Month string january2024).

(** [codeUnitCompare] is a consistent comparator. *)
Lemma codeUnitCompare_total a b :
  (0 < codeUnitCompare a b)%Z -> (codeUnitCompare b a <= 0)%Z.
Proof.
  unfold codeUnitCompare.
  destruct (String_as_OT.compare_spec a b) as [Heq|Hlt|Hgt]; try lia.
  intros _. unfold String_as_OT.lt in Hgt. rewrite Hgt. lia.
Qed.

Lemma codeUnitCompare_trans a b c :
  (codeUnitCompare a b <= 0)%Z -> (codeUnitCompare b c <= 0)%Z ->
  (codeUnitCompare a c <= 0)%Z.
Proof.
  unfold codeUnitCompare.
  destruct (String_as_OT.compare_spec a b) as [Hab|Hab|Hab]; try lia;
    destruct (String_as_OT.compare_spec b c) as [Hbc|Hbc|Hbc]; try lia;
    intros _ _; unfold String_as_OT.eq in *; subst.
  - destruct (String_as_OT.compare_spec c c) as [_|H|H]; try lia.
    exfalso; exact (StrictOrder_Irreflexive c H).
  - unfold String_as_OT.lt in Hbc. rewrite Hbc. lia.
  - unfold String_as_OT.lt in Hab. rewrite Hab. lia.
  - assert (H : String_as_OT.lt a c) by (etransitivity; eassumption).
    unfold String_as_OT.lt in H. rewrite H. lia.
Qed.

(** Scenario A of the specification: one page with Milk and Bread of the
    same date gives one group, Bread before Milk. *)
Example scenario_A :
  settle codeUnitCompare (load doNothing) (Emits (Page.mk [milk; bread] true)) new
  = Returned
      (mkComponent january2024
         (Some [ExpenseGroup.mk "2024-01-05" [bread; milk]]) true false
         (Criteria.mk 0 25 "date,desc" None None (Some "2024-01"))
         (@nil string),
       [GetExpenses string
          (Criteria.mk 0 25 "date,desc" None None (Some "2024-01"));
        Calls string doNothing]).
Proof. vm_compute. reflexivity. Qed.

(** Scenario B: a second page with Eggs of that date is merged into the
    group. *)
Example scenario_B :
  runSteps
    [(LoadExpenses, Emits (Page.mk [milk; bread] false));
     (LoadNextExpensePage 7, Emits (Page.mk [eggs] true))] new
  = Returned
      (mkComponent january2024
         (Some [ExpenseGroup.mk "2024-01-05" [bread; eggs; milk]]) true false
         (Criteria.mk 1 25 "date,desc" None None (Some "2024-01"))
         (@nil string)).
Proof. vm_compute. reflexivity. Qed.

(** Records of one identifier are one partition under a sort by name. *)
Example same_id_one_group :
  partitions (groupingKey false) [milk; expense "e1" "Milk again" "2024-01-07"]
  = [[milk; expense "e1" "Milk again" "2024-01-07"]].
Proof. reflexivity. Qed.

(** The idempotence of a first page, on a new component. *)
Lemma first_page_load_idempotent_witness :
  Criteria.page (searchCriteria new) = 0 /\
  exists once effects,
    settle codeUnitCompare (load doNothing) (Emits firstPage) new
    = Returned (once, effects) /\
    settle codeUnitCompare (load doNothing) (Emits firstPage) once
    = Returned (once, effects).
Proof.
  split; [reflexivity|].
  apply (@first_page_load_idempotent Month formatPeriod string string
           codeUnitCompare doNothing firstPage new).
  reflexivity.
Defined.

(** Three records under a sort by name, two of them of one date. *)
Lemma non_date_sort_groups_each_record_witness :
  let this :=
    set_searchCriteria (Criteria.mk 0 25 "name,asc" None None None) new in
  String.prefix "date" (Criteria.sort (searchCriteria this)) = false /\
  NoDup (map Expense.id [milk; bread; rent]) /\
  exists this' effects,
    settle codeUnitCompare (load doNothing)
      (Emits (Page.mk [milk; bread; rent] false)) this
    = Returned (this', effects) /\
    expenseGroups this'
    = Some (keptGroups this
              ++ map (fun e => ExpenseGroup.mk (Expense.date e) [e])
                   [milk; bread; rent]).
Proof.
  assert (Hids : NoDup (map Expense.id [milk; bread; rent])).
  { repeat constructor; simpl; intuition discriminate. }
  split; [reflexivity|]. split; [exact Hids|].
  apply (@non_date_sort_groups_each_record Month formatPeriod string string
           codeUnitCompare doNothing [milk; bread; rent] false
           (set_searchCriteria (Criteria.mk 0 25 "name,asc" None None None) new)).
  - reflexivity.
  - exact Hids.
Defined.

(** Eggs arrive on the second page, between Coffee and Water of other
    dates, for the group of Bread and Milk. *)
Lemma merge_into_group_of_same_date_witness :
  let this :=
    mkComponent january2024
      (Some [ExpenseGroup.mk "2024-01-01" [rent];
             ExpenseGroup.mk "2024-01-05" [bread; milk]])
      false false
      (Criteria.mk 1 25 "date,desc" None None (Some "2024-01"))
      (@nil string) in
  exists this' effects,
    settle codeUnitCompare (load (completeEvent 7))
      (Emits (Page.mk ([coffee] ++ eggs :: [water]) true)) this
    = Returned (this', effects) /\
    groupsOfDate "2024-01-05" (groupsOf this')
    = [ExpenseGroup.mk "2024-01-05" [bread; eggs; milk]].
Proof.
  apply (@merge_into_group_of_same_date Month formatPeriod string string
           codeUnitCompare (completeEvent 7) true _
           [ExpenseGroup.mk "2024-01-01" [rent];
            ExpenseGroup.mk "2024-01-05" [bread; milk]]
           "2024-01-05" bread eggs milk [coffee] [water]).
  - reflexivity.
  - simpl. discriminate.
  - reflexivity.
  - reflexivity.
  - reflexivity.
  - repeat constructor. simpl. discriminate.
  - repeat constructor. simpl. discriminate.
  - vm_compute. discriminate.
  - vm_compute. reflexivity.
Defined.

(** Loads under sorts by date, one of them failing. *)
Lemma date_keys_unique_witness :
  exists final,
    runSteps
      [(LoadExpenses, Emits firstPage);
       (SearchFormValueChanges byDateAscending, Fails "offline");
       (ReloadExpenses None, Emits firstPage);
       (LoadNextExpensePage 3, Emits secondPage)] new
    = Returned final /\
    datesUnique final.
Proof.
  apply (@date_keys_unique Month addMonths formatPeriod string string
           codeUnitCompare
           [(LoadExpenses, Emits firstPage);
            (SearchFormValueChanges byDateAscending, Fails "offline");
            (ReloadExpenses None, Emits firstPage);
            (LoadNextExpensePage 3, Emits secondPage)] new).
  - reflexivity.
  - reflexivity.
  - repeat constructor.
Defined.

(** Loads under a sort by name and under a sort by date. *)
Lemma groups_sorted_by_name_witness :
  exists final,
    runSteps
      [(SearchFormValueChanges byName, Emits firstPage);
       (LoadNextExpensePage 3, Emits secondPage);
       (SearchFormValueChanges byDateAscending, Emits firstPage);
       (AddMonths 1, Fails "offline")] new
    = Returned final /\
    Forall (fun g => StronglySorted (nameLe codeUnitCompare)
                       (ExpenseGroup.expenses g))
      (groupsOf final).
Proof.
  apply (@groups_sorted_by_name Month addMonths formatPeriod string string
           codeUnitCompare codeUnitCompare_total codeUnitCompare_trans
           january2024).
Defined.

(** C3 as the specification has it: a component whose last load brought
    the last page is reloaded; when [reloadExpenses] returns, and no
    response has arrived yet, the flag of the last page is still set. *)
Lemma reload_clears_last_page_flag_counterexample :
  let this :=
    mkComponent january2024
      (Some [ExpenseGroup.mk "2024-01-05" [bread; milk]]) true false
      (Criteria.mk 0 25 "date,desc" None None (Some "2024-01"))
      (@nil string) in
  settle codeUnitCompare (load doNothing)
    (Emits (Page.mk [milk; bread] true)) new
  = Returned (this,
              [GetExpenses string (searchCriteria this);
               Calls string doNothing]) /\
  ~ (Criteria.page (searchCriteria (afterCall (reload None) this)) = 0 /\
     lastPageReached (afterCall (reload None) this) = false).
Proof.
  split; [vm_compute; reflexivity|].
  intros [_ Hlast]. vm_compute in Hlast. discriminate.
Qed.

(** Loads under sorts by date, with a merge into the group of a date. *)
Lemma groups_hold_their_date_witness :
  exists final,
    runSteps
      [(LoadExpenses, Emits firstPage);
       (LoadNextExpensePage 3, Emits (Page.mk [coffee; eggs; water] true));
       (SearchFormValueChanges byDateAscending, Fails "offline")] new
    = Returned final /\
    Forall ofItsDate (groupsOf final).
Proof.
  apply (@groups_hold_their_date Month addMonths formatPeriod string string
           codeUnitCompare
           [(LoadExpenses, Emits firstPage);
            (LoadNextExpensePage 3, Emits (Page.mk [coffee; eggs; water] true));
            (SearchFormValueChanges byDateAscending, Fails "offline")] new).
  - reflexivity.
  - constructor.
  - repeat constructor.
Defined.

(** Milk, Bread and Rent: two dates, two groups. *)
Lemma first_page_one_group_per_date_witness :
  sortsByDate new /\
  exists this' effects,
    settle codeUnitCompare (reload (Some 4)) (Emits firstPage) new
    = Returned (this', effects) /\
    NoDup (map ExpenseGroup.date (groupsOf this')) /\
    forall d,
      In d (map ExpenseGroup.date (groupsOf this')) <->
      In d (map Expense.date (Page.content firstPage)).
Proof.
  split; [reflexivity|].
  apply (@first_page_one_group_per_date Month formatPeriod string string
           codeUnitCompare (Some 4) firstPage new).
  reflexivity.
Defined.

(** C10 as the specification has it: a new component, which has no
    groups, loads a page under a sort by name (Milk and Bread, of one
    date, get a group each); the change of the sort to "date,asc" fails,
    which leaves these groups; the next page arrives under the sort by
    date.  The sort then starts with "date" and two groups have the date
    of Milk and Bread. *)
Lemma date_keys_unique_counterexample :
  exists final,
    groupsOf new = [] /\
    runSteps
      [(SearchFormValueChanges byName, Emits firstPage);
       (SearchFormValueChanges byDateAscending, Fails "offline");
       (LoadNextExpensePage 3, Emits secondPage)] new
    = Returned final /\
    sortsByDate final /\
    map ExpenseGroup.date (groupsOf final)
    = ["2024-01-05"; "2024-01-05"; "2024-01-01"] /\
    ~ datesUnique final.
Proof.
  eexists. split; [reflexivity|]. split; [vm_compute; reflexivity|].
  split; [reflexivity|]. split; [reflexivity|].
  intros Hunique. unfold datesUnique in Hunique. vm_compute in Hunique.
  inversion Hunique as [|? ? Hfresh _]. apply Hfresh. left; reflexivity.
Qed.

End Concrete.
